(** * PromptLab: the model-invocation core, embedded and checked

    A shallow embedding of the two source files that hold the core of the
    extension:

    - [src/hooks/useModel.ts]: the endpoint invoker, with its key-path
      extractor [get], the request-body construction and the accumulation of
      streamed chunks;
    - [src/components/CommandChatView.tsx]: the chat session, with its
      submit, cancel and regenerate actions.

    The source is TypeScript, so the embedding starts with the JavaScript
    string operations the two files call ([trim], [split], [includes],
    [replace], [replaceAll], [toLowerCase], [join], the coercions behind [+]
    and [>]).  A JavaScript string is a sequence of UTF-16 code units; here it
    is a [string] whose characters are the code units below 256, which covers
    every character the source itself mentions. *)

From Stdlib Require Import String Ascii List ZArith Lia Bool Arith.
From Stdlib Require Import DecimalString.
Import ListNotations.

Open Scope string_scope.
Open Scope list_scope.

(** ** JavaScript strings *)

Module JS.

(** Characters that cannot be written inside a literal. *)
Definition LF : ascii := ascii_of_nat 10.
Definition CR : ascii := ascii_of_nat 13.
Definition DQUOTE : ascii := ascii_of_nat 34.
Definition BACKSLASH : ascii := ascii_of_nat 92.

Definition chr (c : ascii) : string := String c EmptyString.

(** [WhiteSpace] and [LineTerminator] of the language, which is also what
    the regular expression class [\s] matches: TAB, LF, VT, FF, CR, SPACE and
    NO-BREAK SPACE among the code units below 256. *)
Definition is_space (c : ascii) : bool :=
  let n := nat_of_ascii c in
  (((9 <=? n) && (n <=? 13)) || (n =? 32) || (n =? 160))%nat.

Definition is_empty (s : string) : bool :=
  match s with EmptyString => true | String _ _ => false end.

(** [String.prototype.trim]. *)
Fixpoint trimStart (s : string) : string :=
  match s with
  | EmptyString => EmptyString
  | String c s' => if is_space c then trimStart s' else s
  end.

Fixpoint trimEnd (s : string) : string :=
  match s with
  | EmptyString => EmptyString
  | String c s' =>
      let t := trimEnd s' in
      if is_space c && is_empty t then EmptyString else String c t
  end.

Definition trim (s : string) : string := trimEnd (trimStart s).

(** [s.split(sep)] for a separator of one character: the pieces between the
    occurrences of [sep], empty pieces included; [""] splits into [[""]]. *)
Fixpoint split (sep : ascii) (s : string) : list string :=
  match s with
  | EmptyString => [EmptyString]
  | String c s' =>
      match split sep s' with
      | [] => [chr c]
      | piece :: rest =>
          if Ascii.eqb c sep then EmptyString :: piece :: rest
          else String c piece :: rest
      end
  end.

(** [arr.join(sep)] on an array of strings. *)
Fixpoint join (sep : string) (l : list string) : string :=
  match l with
  | [] => EmptyString
  | [x] => x
  | x :: rest => x ++ sep ++ join sep rest
  end.

(** [strip_prefix p s] is [Some r] when [s = p ++ r]. *)
Fixpoint strip_prefix (p s : string) : option string :=
  match p with
  | EmptyString => Some s
  | String a p' =>
      match s with
      | EmptyString => None
      | String b s' => if Ascii.eqb a b then strip_prefix p' s' else None
      end
  end.

(** [s.includes(t)]: [t] occurs in [s] as a run of consecutive characters. *)
Fixpoint includes (s t : string) : bool :=
  match strip_prefix t s with
  | Some _ => true
  | None =>
      match s with
      | EmptyString => false
      | String _ s' => includes s' t
      end
  end.

(** The first occurrence of [pat] in [s]: the text before it and after it. *)
Fixpoint find_first (s pat : string) : option (string * string) :=
  match strip_prefix pat s with
  | Some after => Some (EmptyString, after)
  | None =>
      match s with
      | EmptyString => None
      | String c s' =>
          match find_first s' pat with
          | Some (before, after) => Some (String c before, after)
          | None => None
          end
      end
  end.

(** [GetSubstitution] for a string pattern (no capture groups): in the
    replacement text [$$] stands for a dollar sign, [$&] for the matched text,
    [$`] for the text before the match and [$'] for the text after it; any
    other [$] is kept as it is. *)
Fixpoint get_substitution (matched before after repl : string) : string :=
  match repl with
  | EmptyString => EmptyString
  | String c r =>
      if Ascii.eqb c "$"%char then
        match r with
        | String d r' =>
            if Ascii.eqb d "$"%char then
              String "$"%char (get_substitution matched before after r')
            else if Ascii.eqb d "&"%char then
              matched ++ get_substitution matched before after r'
            else if Ascii.eqb d "`"%char then
              before ++ get_substitution matched before after r'
            else if Ascii.eqb d "'"%char then
              after ++ get_substitution matched before after r'
            else String c (get_substitution matched before after r)
        | EmptyString => chr c
        end
      else String c (get_substitution matched before after r)
  end.

(** [s.replace(pat, repl)] with a string pattern: only the first occurrence
    is replaced, by the expansion of [repl]. *)
Definition replace (s pat repl : string) : string :=
  match find_first s pat with
  | None => s
  | Some (before, after) =>
      before ++ get_substitution pat before after repl ++ after
  end.

(** [s.replaceAll(/[\n\r\s]+/g, " ")]: every maximal run of white space
    becomes one space.  [in_run] tells that the previous character was white
    space, already replaced. *)
Fixpoint collapse_from (in_run : bool) (s : string) : string :=
  match s with
  | EmptyString => EmptyString
  | String c s' =>
      if is_space c then
        if in_run then collapse_from true s'
        else String " "%char (collapse_from true s')
      else String c (collapse_from false s')
  end.

Definition collapse_whitespace (s : string) : string := collapse_from false s.

(** [s.replaceAll('"', '\\"')]: a backslash before every double quote (the
    replacement text holds no dollar sign, so it is used literally). *)
Fixpoint escape_quotes (s : string) : string :=
  match s with
  | EmptyString => EmptyString
  | String c s' =>
      if Ascii.eqb c DQUOTE then String BACKSLASH (String DQUOTE (escape_quotes s'))
      else String c (escape_quotes s')
  end.

(** [String.prototype.toLowerCase] on the code units below 256: the letters
    A-Z and the accented capitals U+00C0..U+00DE (the multiplication sign
    U+00D7 apart) move up by 32. *)
Definition lower_char (c : ascii) : ascii :=
  let n := nat_of_ascii c in
  if (((65 <=? n) && (n <=? 90))
      || ((192 <=? n) && (n <=? 222) && negb (n =? 215)))%nat
  then ascii_of_nat (n + 32) else c.

Fixpoint toLowerCase (s : string) : string :=
  match s with
  | EmptyString => EmptyString
  | String c s' => String (lower_char c) (toLowerCase s')
  end.

(** [arr.includes(x)] on an array of strings. *)
Fixpoint array_includes (l : list string) (x : string) : bool :=
  match l with
  | [] => false
  | y :: l' => String.eqb y x || array_includes l' x
  end.

(** [t] occurs in [s]: what [includes] decides. *)
Definition occurs_in (t s : string) : Prop :=
  exists a b, s = (a ++ t ++ b)%string.

(** No character of [s] is [c]. *)
Fixpoint free_of (c : ascii) (s : string) : bool :=
  match s with
  | EmptyString => true
  | String d s' => negb (Ascii.eqb d c) && free_of c s'
  end.

(** [c.repeat(n)] *)
Fixpoint repeat_char (c : ascii) (n : nat) : string :=
  match n with
  | O => EmptyString
  | S n' => String c (repeat_char c n')
  end.

(** [s] between double quotes. *)
Definition quoted (s : string) : string :=
  String DQUOTE (s ++ chr DQUOTE).

(** [Number.prototype.toString] on a length (a non-negative integer). *)
Definition string_of_length (n : nat) : string :=
  NilZero.string_of_uint (Nat.to_uint n).

(** *** Splitting on the bracket pattern

    [item.split(/\[([^}]+)\]/g)].  The pattern matches an opening bracket, then
    one or more characters other than a closing BRACE, as many as possible,
    then a closing bracket; the characters in between are its capture group.
    [bracket_body t] is the match of [([^}]+)\]] at the head of [t]: the
    longest non-empty [cap] free of braces with [t = cap ++ "]" ++ rest]. *)
Fixpoint bracket_body (t : string) : option (string * string) :=
  match t with
  | EmptyString => None
  | String c t' =>
      if Ascii.eqb c "}"%char then None
      else
        match bracket_body t' with
        | Some (cap, rest) => Some (String c cap, rest)
        | None =>
            match t' with
            | String d rest =>
                if Ascii.eqb d "]"%char then Some (chr c, rest) else None
            | EmptyString => None
            end
        end
  end.

Definition match_bracket (s : string) : option (string * string) :=
  match s with
  | String c t => if Ascii.eqb c "["%char then bracket_body t else None
  | EmptyString => None
  end.

(** [split] with a pattern that has a capture group: the text between the
    matches, with each match's capture in between.  The pattern is tried at
    every position from the left; after a match the scan goes on behind it.
    Every step consumes a character, so [length s + 1] steps are enough. *)
Fixpoint split_brackets_from (fuel : nat) (s : string) : list string :=
  match fuel with
  | O => [s]
  | S fuel' =>
      match match_bracket s with
      | Some (cap, rest) => EmptyString :: cap :: split_brackets_from fuel' rest
      | None =>
          match s with
          | EmptyString => [EmptyString]
          | String c s' =>
              match split_brackets_from fuel' s' with
              | piece :: more => String c piece :: more
              | [] => [chr c]
              end
          end
      end
  end.

Definition split_brackets (s : string) : list string :=
  split_brackets_from (S (String.length s)) s.

(** *** The coercion of a string to a number

    [ToNumber] on a string ([StringToNumber]): white space is trimmed, the
    empty string is 0, and the rest has to be, as a whole, a
    [StrNumericLiteral]: a binary, octal or hexadecimal integer ([0b], [0o],
    [0x]), or an optionally signed [Infinity] or decimal literal with an
    optional fraction and exponent.  Anything else is [NaN].  A finite value
    is kept exactly, as [m * 10 ^ e]. *)
Inductive number : Type :=
  | NaN
  | Finite (m e : Z)
  | Infinite (negative : bool).

Definition digit_of (c : ascii) : option Z :=
  let n := nat_of_ascii c in
  if ((48 <=? n) && (n <=? 57))%nat then Some (Z.of_nat (n - 48))
  else if ((97 <=? n) && (n <=? 122))%nat then Some (Z.of_nat (n - 87))
  else if ((65 <=? n) && (n <=? 90))%nat then Some (Z.of_nat (n - 55))
  else None.

(** The longest run of digits of the base at the head of [s]: its value
    (continuing [acc]), the number of digits read, and the rest. *)
Fixpoint read_digits (base acc : Z) (cnt : nat) (s : string) : Z * nat * string :=
  match s with
  | EmptyString => (acc, cnt, s)
  | String c s' =>
      match digit_of c with
      | Some d =>
          if (d <? base)%Z then read_digits base (acc * base + d)%Z (S cnt) s'
          else (acc, cnt, s)
      | None => (acc, cnt, s)
      end
  end.

Definition radix_literal (base : Z) (body : string) : number :=
  let '(v, n, rest) := read_digits base 0 0 body in
  if (0 <? n)%nat && is_empty rest then Finite v 0 else NaN.

(** [ExponentPart_opt] up to the end of the string: the exponent to add. *)
Definition exponent_part (s : string) : option Z :=
  match s with
  | EmptyString => Some 0%Z
  | String c s' =>
      if Ascii.eqb c "e"%char || Ascii.eqb c "E"%char then
        let '(sign, digits) :=
          match s' with
          | String d s'' =>
              if Ascii.eqb d "+"%char then (1%Z, s'')
              else if Ascii.eqb d "-"%char then ((-1)%Z, s'')
              else (1%Z, s')
          | EmptyString => (1%Z, s')
          end in
        let '(x, n, rest) := read_digits 10 0 0 digits in
        if (0 <? n)%nat && is_empty rest then Some (sign * x)%Z else None
      else None
  end.

(** [StrUnsignedDecimalLiteral], [Infinity] apart: digits with an optional
    fraction, or a fraction alone, then the exponent. *)
Definition unsigned_decimal (s : string) : option (Z * Z) :=
  let '(i, ni, r1) := read_digits 10 0 0 s in
  let mantissa :=
    match r1 with
    | String c r2 =>
        if Ascii.eqb c "."%char then
          let '(f, nf, r3) := read_digits 10 i 0 r2 in
          if (ni =? 0)%nat && (nf =? 0)%nat then None
          else Some (f, (- Z.of_nat nf)%Z, r3)
        else if (ni =? 0)%nat then None else Some (i, 0%Z, r1)
    | EmptyString => if (ni =? 0)%nat then None else Some (i, 0%Z, r1)
    end in
  match mantissa with
  | None => None
  | Some (m, e, rest) =>
      match exponent_part rest with
      | Some x => Some (m, (e + x)%Z)
      | None => None
      end
  end.

Definition signed_decimal (s : string) : number :=
  let '(negative, body) :=
    match s with
    | String c s' =>
        if Ascii.eqb c "+"%char then (false, s')
        else if Ascii.eqb c "-"%char then (true, s')
        else (false, s)
    | EmptyString => (false, s)
    end in
  if String.eqb body "Infinity" then Infinite negative
  else
    match unsigned_decimal body with
    | Some (m, e) => Finite (if negative then (- m)%Z else m) e
    | None => NaN
    end.

Definition string_to_number (s : string) : number :=
  match trim s with
  | EmptyString => Finite 0 0
  | String c (String x body) as t =>
      if Ascii.eqb c "0"%char then
        if Ascii.eqb x "x"%char || Ascii.eqb x "X"%char then radix_literal 16 body
        else if Ascii.eqb x "o"%char || Ascii.eqb x "O"%char then radix_literal 8 body
        else if Ascii.eqb x "b"%char || Ascii.eqb x "B"%char then radix_literal 2 body
        else signed_decimal t
      else signed_decimal t
  | t => signed_decimal t
  end.

(** A character no numeric literal starts with: a letter other than the [I]
    of [Infinity]. *)
Definition starts_word (c : ascii) : bool :=
  match digit_of c with
  | Some d => (10 <=? d)%Z && negb (Ascii.eqb c "I"%char)
  | None => false
  end.

(** [x > 3900] for the number a string converts to.  The conversion rounds
    to the nearest double, ties to even; 3900 is a double with an even
    significand and the next double above it is [3900 + 2^-41], so the rounded
    value is above 3900 exactly when the exact one is above [3900 + 2^-42].
    A comparison with [NaN] is false. *)
Definition exceeds_3900 (x : number) : bool :=
  let bound := (3900 * 2 ^ 42 + 1)%Z in
  match x with
  | NaN => false
  | Infinite negative => negb negative
  | Finite m e =>
      if (0 <=? e)%Z then (bound <? m * 10 ^ e * 2 ^ 42)%Z
      else (bound * 10 ^ (- e) <? m * 2 ^ 42)%Z
  end.

(** *** More string operations, for the rest of the two files *)

(** [s.startsWith(p)] *)
Definition startsWith (s p : string) : bool :=
  match strip_prefix p s with
  | Some _ => true
  | None => false
  end.

(** [s.replaceAll(pat, repl)] with a string pattern: every occurrence of
    [pat], found from the left without overlap, is replaced by the expansion
    of [repl]; the text before and after a match, for [$`] and [$'], is that
    of the whole string.  [seen] is what lies before [rest] in that string.
    An empty pattern matches before every character and at the end.  Every
    step consumes a character, so [length s + 1] steps are enough. *)
Fixpoint replaceAll_from (fuel : nat) (pat repl seen rest : string) : string :=
  match fuel with
  | O => rest
  | S fuel' =>
      if is_empty pat then
        get_substitution pat seen rest repl
        ++ match rest with
           | EmptyString => EmptyString
           | String c r =>
               String c (replaceAll_from fuel' pat repl (seen ++ chr c) r)
           end
      else
        match strip_prefix pat rest with
        | Some after =>
            get_substitution pat seen after repl
            ++ replaceAll_from fuel' pat repl (seen ++ pat) after
        | None =>
            match rest with
            | EmptyString => EmptyString
            | String c r =>
                String c (replaceAll_from fuel' pat repl (seen ++ chr c) r)
            end
        end
  end.

Definition replaceAll (s pat repl : string) : string :=
  replaceAll_from (S (String.length s)) pat repl EmptyString s.

(** [s.split(sep)] with a separator of any length: the pieces between the
    occurrences of [sep], found from the left without overlap; an empty
    separator splits into the single characters. *)
Fixpoint split_by_from (fuel : nat) (sep s : string) : list string :=
  match fuel with
  | O => [s]
  | S fuel' =>
      match strip_prefix sep s with
      | Some rest => EmptyString :: split_by_from fuel' sep rest
      | None =>
          match s with
          | EmptyString => [EmptyString]
          | String c s' =>
              match split_by_from fuel' sep s' with
              | piece :: more => String c piece :: more
              | [] => [chr c]
              end
          end
      end
  end.

Fixpoint characters (s : string) : list string :=
  match s with
  | EmptyString => []
  | String c s' => chr c :: characters s'
  end.

Definition split_by (sep s : string) : list string :=
  if is_empty sep then characters s
  else split_by_from (S (String.length s)) sep s.

End JS.

(** ** JavaScript values

    What a response holds once parsed, and what a property read on it can
    return.  A number is an IEEE double and a property that is not the value's
    own is looked up in the prototype chain ([Object.prototype],
    [Array.prototype], ...): neither is fixed here.  Both come with the
    [Host]: the type of numbers with what the code asks of them, the type
    [native] of the built-in objects and functions a prototype holds, and the
    inherited read itself.  Every statement below holds for every host. *)

Inductive completion (A : Type) : Type :=
  | Normal (a : A)
  | Throw.

Arguments Normal {A} a.
Arguments Throw {A}.

Module Value.

Section Values.

Variables num native : Type.

#[warnings="-register-all"]
Inductive JSValue : Type :=
  | JUndefined
  | JNull
  | JBool (b : bool)
  | JNum (n : num)
  | JStr (s : string)
  | JArr (items : list JSValue)
  | JObj (fields : list (string * JSValue))
  | JNative (f : native).

Record Host : Type := {
  (** false for [+0], [-0] and [NaN] only *)
  num_truthy : num -> bool;
  (** the number a [length] is *)
  num_of_length : nat -> num;
  (** [Number.prototype.toString] *)
  num_to_string : num -> string;
  (** [typeof f == "object"] (false for a function) *)
  native_is_object : native -> bool;
  (** [f.toString()] *)
  native_to_string : native -> completion string;
  (** the read of a property that is not the value's own *)
  inherited : JSValue -> string -> completion JSValue
}.

Variable H : Host.

(** [!!v] *)
Definition truthy (v : JSValue) : bool :=
  match v with
  | JUndefined | JNull => false
  | JBool b => b
  | JNum n => num_truthy H n
  | JStr s => negb (JS.is_empty s)
  | JArr _ | JObj _ | JNative _ => true
  end.

Definition falsy (v : JSValue) : bool := negb (truthy v).

(** [typeof v == "object"]: objects, arrays and, as the language has it,
    [null]. *)
Definition typeof_object (v : JSValue) : bool :=
  match v with
  | JNull | JArr _ | JObj _ => true
  | JNative f => native_is_object H f
  | JUndefined | JBool _ | JNum _ | JStr _ => false
  end.

(** The own property [key] of an object.  [fields] lists the properties of
    the object; were a key repeated, its first binding is the property. *)
Fixpoint own_field (fields : list (string * JSValue)) (key : string)
  : option JSValue :=
  match fields with
  | [] => None
  | (k, v) :: rest => if String.eqb k key then Some v else own_field rest key
  end.

(** A key that is an array index: the canonical decimal form of a natural
    number ([0], or digits that do not start with [0]). *)
Definition array_index (key : string) : option nat :=
  match key with
  | EmptyString => None
  | String c rest =>
      if Ascii.eqb c "0"%char && negb (JS.is_empty rest) then None
      else
        let '(v, _, remaining) := JS.read_digits 10 0 0 key in
        if JS.is_empty remaining then Some (Z.to_nat v) else None
  end.

Fixpoint char_at (s : string) (i : nat) : option ascii :=
  match s, i with
  | EmptyString, _ => None
  | String c _, O => Some c
  | String _ s', S i' => char_at s' i'
  end.

(** [current[key]]: the value's own property when it has one (a field of an
    object, an element or the [length] of an array, a character or the
    [length] of a string), otherwise the inherited one.  Reading a property
    of [null] or [undefined] raises a [TypeError]. *)
Definition get_prop (current : JSValue) (key : string) : completion JSValue :=
  match current with
  | JUndefined | JNull => Throw
  | JObj fields =>
      match own_field fields key with
      | Some v => Normal v
      | None => inherited H current key
      end
  | JArr items =>
      match array_index key with
      | Some i =>
          match nth_error items i with
          | Some v => Normal v
          | None => inherited H current key
          end
      | None =>
          if String.eqb key "length"
          then Normal (JNum (num_of_length H (List.length items)))
          else inherited H current key
      end
  | JStr s =>
      match array_index key with
      | Some i =>
          match char_at s i with
          | Some c => Normal (JStr (JS.chr c))
          | None => inherited H current key
          end
      | None =>
          if String.eqb key "length"
          then Normal (JNum (num_of_length H (String.length s)))
          else inherited H current key
      end
  | JBool _ | JNum _ | JNative _ => inherited H current key
  end.

End Values.

Arguments JUndefined {num native}.
Arguments JNull {num native}.
Arguments JBool {num native} b.
Arguments JNum {num native} n.
Arguments JStr {num native} s.
Arguments JArr {num native} items.
Arguments JObj {num native} fields.
Arguments JNative {num native} f.
Arguments truthy {num native} H v.
Arguments falsy {num native} H v.
Arguments typeof_object {num native} H v.
Arguments own_field {num native} fields key.
Arguments get_prop {num native} H current key.
Arguments inherited {num native} h _ _.
Arguments num_truthy {num native} h _.
Arguments num_of_length {num native} h _.
Arguments num_to_string {num native} h _.
Arguments native_is_object {num native} h _.
Arguments native_to_string {num native} h _.

(** A host to run examples on: the numbers are the integers, and nothing is
    inherited (every read of a property that is not an own one gives
    [undefined]). *)
Definition plain_host : Host Z Empty_set := {|
  num_truthy := fun n => negb (n =? 0)%Z;
  num_of_length := Z.of_nat;
  num_to_string := fun n => NilZero.string_of_int (Z.to_int n);
  native_is_object := fun _ => false;
  native_to_string := fun f : Empty_set => match f with end;
  inherited := fun _ _ => Normal JUndefined
|}.

(** A host with a part of what the platform's objects inherit: an object
    and an array have a [constructor], which is a function; a function has a
    [name]; and its [caller] and [arguments] are accessors that raise a
    [TypeError].  Nothing else is inherited. *)
Inductive Builtin : Type :=
  | ObjectFunction
  | ArrayFunction.

Definition builtin_name (f : Builtin) : string :=
  match f with
  | ObjectFunction => "Object"
  | ArrayFunction => "Array"
  end.

Definition node_host : Host Z Builtin := {|
  num_truthy := fun n => negb (n =? 0)%Z;
  num_of_length := Z.of_nat;
  num_to_string := fun n => NilZero.string_of_int (Z.to_int n);
  native_is_object := fun _ => false;
  native_to_string := fun f =>
    Normal ("function " ++ builtin_name f ++ "() { [native code] }")%string;
  inherited := fun v key =>
    match v with
    | JObj _ =>
        if String.eqb key "constructor" then Normal (JNative ObjectFunction)
        else Normal JUndefined
    | JArr _ =>
        if String.eqb key "constructor" then Normal (JNative ArrayFunction)
        else Normal JUndefined
    | JNative f =>
        if String.eqb key "caller" || String.eqb key "arguments" then Throw
        else if String.eqb key "name" then Normal (JStr (builtin_name f))
        else Normal JUndefined
    | _ => Normal JUndefined
    end
|}.

End Value.

Import Value.

(** ** The key-path extractor: [get] of useModel.ts *)

Module KeyPath.

Section Get.

Context {num native : Type}.
Variable H : Host num native.

(** The [path] array: [pathString.trim().split(".")], each item split on
    the bracket pattern, the empty keys left out. *)
Definition path_of (pathString : string) : list string :=
  flat_map
    (fun item => filter (fun key => (0 <? String.length key)%nat) (JS.split_brackets item))
    (JS.split "." (JS.trim pathString)).

(** The tokens as the specification words them, to compare [path_of] with:
    the path is split on the dots, each segment on its brackets (so that
    [name[idx]] gives [name] and [idx]), and the empty tokens are dropped. *)
Definition spec_path_of (pathString : string) : list string :=
  flat_map
    (fun item =>
       filter (fun key => (0 <? String.length key)%nat)
         (flat_map (JS.split "]") (JS.split "[" item)))
    (JS.split "." (JS.trim pathString)).

(** [def?: string]: an omitted argument is [undefined]. *)
Definition def_value (def : option string) : JSValue num native :=
  match def with
  | Some s => JStr s
  | None => JUndefined
  end.

(** The [for] loop: [if (!current[path[i]]) return def; current =
    current[path[i]];] for each key in turn, then [return current]. *)
Fixpoint descend (current : JSValue num native) (path : list string)
  (def : option string) : completion (JSValue num native) :=
  match path with
  | [] => Normal current
  | key :: rest =>
      match get_prop H current key with
      | Throw => Throw
      | Normal v =>
          if negb (truthy H v) then Normal (def_value def)
          else
            match get_prop H current key with
            | Throw => Throw
            | Normal next => descend next rest def
            end
      end
  end.

Definition get (obj : JSValue num native) (pathString : string)
  (def : option string) : completion (JSValue num native) :=
  let path := path_of pathString in
  let current := obj in
  if typeof_object H current then descend current path def
  else Normal current.

(** The values the keys of [path] name in the data, one after the other,
    up to a read that raises. *)
Fixpoint path_values (current : JSValue num native) (path : list string)
  : list (JSValue num native) :=
  match path with
  | [] => []
  | key :: rest =>
      match get_prop H current key with
      | Throw => []
      | Normal v => v :: path_values v rest
      end
  end.

(** [reaches v keys w]: reading [keys] one after the other from [v] arrives
    at [w], through truthy values only. *)
Inductive reaches : JSValue num native -> list string -> JSValue num native -> Prop :=
  | reaches_here : forall v, reaches v [] v
  | reaches_step : forall v key w rest u,
      get_prop H v key = Normal w ->
      truthy H w = true ->
      reaches w rest u ->
      reaches v (key :: rest) u.

End Get.

End KeyPath.

Import KeyPath.

(** ** The endpoint invoker: useModel.ts *)

Module Model.

Record ExtensionPreferences : Type := {
  modelEndpoint : string;
  authType : string;
  apiKey : string;
  inputSchema : string;
  outputKeyPath : string;
  outputTiming : string;
  promptPrefix : string;
  promptSuffix : string
}.

(** We can be a little forgiving of how users specify Raycast AI. *)
Definition validRaycastAIReps : list string :=
  ["raycast ai"; "raycastai"; "raycast"; "raycast-ai"].

(** [x.replaceAll(/[\n\r\s]+/g, " ").replaceAll('"', '\\"')] *)
Definition flatten (x : string) : string :=
  JS.escape_quotes (JS.collapse_whitespace x).

(** The body of the request when [outputTiming] is ["sync"]. *)
Definition sync_body (preferences : ExtensionPreferences)
  (basePrompt prompt input : string) : string :=
  JS.replace
    (JS.replace
       (JS.replace (inputSchema preferences) "{prompt}"
          (promptPrefix preferences ++ flatten prompt ++ promptSuffix preferences))
       "{basePrompt}"
       (promptPrefix preferences ++ flatten basePrompt))
    "{input}"
    (if JS.includes (inputSchema preferences) "{prompt" && String.eqb prompt input
     then EmptyString
     else (flatten input ++ promptSuffix preferences)%string).

(** The body of the request when [outputTiming] is ["async"]. *)
Definition async_body (preferences : ExtensionPreferences)
  (basePrompt prompt input : string) : string :=
  JS.replace
    (JS.replace
       (JS.replace (inputSchema preferences) "{prompt}"
          (promptPrefix preferences ++ flatten prompt ++ promptSuffix preferences))
       "{basePrompt}"
       (promptPrefix preferences ++ flatten basePrompt))
    "{input}"
    (flatten input ++ promptSuffix preferences).

(** The headers, with the authentication header the preferences ask for. *)
Definition headers (preferences : ExtensionPreferences) : list (string * string) :=
  [("method", "POST"); ("Content-Type", "application/json")]
  ++ (if String.eqb (authType preferences) "apiKey"
      then [("Authorization", ("Api-Key " ++ apiKey preferences)%string)]
      else if String.eqb (authType preferences) "bearerToken"
      then [("Authorization", ("Bearer " ++ apiKey preferences)%string)]
      else if String.eqb (authType preferences) "x-api-key"
      then [("X-API-Key", apiKey preferences)]
      else []).

(** The error texts of the hook.  One of them holds a dash that is no code
    unit below 256, so the texts are named rather than spelled:
    [PromptCannotBeEmpty] is "Prompt cannot be empty", [RaycastAIUnavailable]
    is "Raycast AI is not available - Upgrade to Pro or use a different model
    endpoint.", [InvalidEndpoint] is "Invalid Endpoint", [CouldNotParse] is
    "Couldn't parse model output", and [StatusText] is the status text of a
    response. *)
Inductive ErrorText : Type :=
  | PromptCannotBeEmpty
  | RaycastAIUnavailable
  | InvalidEndpoint
  | CouldNotParse
  | StatusText (text : string).

(** A [fetch] call: always a POST. *)
Record Request : Type := {
  url : string;
  request_headers : list (string * string);
  body : string
}.

(** The [useState] cells of the hook. *)
Record HookState : Type := {
  data : string;
  isLoading : bool;
  error : option ErrorText;
  dataTag : string
}.

(** What the hook hands back: the fields of the object it returns. *)
Record ModelView : Type := {
  view_data : string;
  view_isLoading : bool;
  view_error : option ErrorText;
  view_dataTag : option string
}.

(** One call of [useModel] whose effect runs: either it returns at once and
    starts nothing, or it hands the prompt to the platform's [useAI] hook, or
    it returns the state and its effect issues a [fetch] when [execute] holds
    and [outputTiming] is one of the two known values. *)
Inductive Invocation : Type :=
  | Returned (view : ModelView)
  | NativeAI (text : string) (execute : bool) (tag : string)
  | Endpoint (view : ModelView) (started : option Request).

Definition useModel (preferences : ExtensionPreferences) (canAccessAI : bool)
  (state : HookState) (basePrompt prompt input : string) (execute : bool)
  : Invocation :=
  if (String.length basePrompt =? 0)%nat && (String.length prompt =? 0)%nat then
    Returned {| view_data := EmptyString; view_isLoading := false;
                view_error := Some PromptCannotBeEmpty;
                view_dataTag := None |}
  else if JS.array_includes validRaycastAIReps
            (JS.toLowerCase (modelEndpoint preferences)) then
    if negb canAccessAI then
      Returned {| view_data := EmptyString; view_isLoading := false;
                  view_error := Some RaycastAIUnavailable;
                  view_dataTag := None |}
    else
      NativeAI (promptPrefix preferences ++ prompt ++ promptSuffix preferences)
        execute basePrompt
  else if JS.includes (modelEndpoint preferences) ":" then
    Endpoint
      {| view_data := data state; view_isLoading := isLoading state;
         view_error := error state; view_dataTag := Some (dataTag state) |}
      (if execute then
         if String.eqb (outputTiming preferences) "sync" then
           Some {| url := modelEndpoint preferences;
                   request_headers := headers preferences;
                   body := sync_body preferences basePrompt prompt input |}
         else if String.eqb (outputTiming preferences) "async" then
           Some {| url := modelEndpoint preferences;
                   request_headers := headers preferences;
                   body := async_body preferences basePrompt prompt input |}
         else None
       else None)
  else
    Returned {| view_data := EmptyString; view_isLoading := false;
                view_error := Some InvalidEndpoint;
                view_dataTag := Some EmptyString |}.

(** What an invocation issues on the network. *)
Definition network_calls (i : Invocation) : list Request :=
  match i with
  | Endpoint _ (Some r) => [r]
  | Endpoint _ None | Returned _ | NativeAI _ _ _ => []
  end.

(** The [revalidate] function the hook returns: [useAI]'s own one, which
    runs the prompt again, on the native branch; [() => null] everywhere
    else. *)
Inductive Rerun : Type :=
  | RerunAI (text : string).

Definition revalidate (i : Invocation) : list Rerun :=
  match i with
  | NativeAI text _ _ => [RerunAI text]
  | Returned _ | Endpoint _ _ => []
  end.

(** Preferences to run examples on: an endpoint reached over HTTP whose
    request body is [{"q":"{prompt}"}], with no prefix and no suffix. *)
Definition example_schema : string :=
  ("{" ++ JS.quoted "q" ++ ":" ++ JS.quoted "{prompt}" ++ "}")%string.

Definition example_preferences : ExtensionPreferences := {|
  modelEndpoint := "https://api.example.com/v1/complete";
  authType := "bearerToken";
  apiKey := "secret";
  inputSchema := example_schema;
  outputKeyPath := "choices[0].text";
  outputTiming := "sync";
  promptPrefix := EmptyString;
  promptSuffix := EmptyString
|}.

(** The same with Raycast AI as the endpoint. *)
Definition raycast_preferences : ExtensionPreferences := {|
  modelEndpoint := "Raycast AI";
  authType := EmptyString;
  apiKey := EmptyString;
  inputSchema := example_schema;
  outputKeyPath := "choices[0].text";
  outputTiming := "sync";
  promptPrefix := EmptyString;
  promptSuffix := EmptyString
|}.

(** The example endpoint, streamed. *)
Definition streamed_preferences : ExtensionPreferences := {|
  modelEndpoint := "https://api.example.com/v1/complete";
  authType := "bearerToken";
  apiKey := "secret";
  inputSchema := example_schema;
  outputKeyPath := "choices[0].text";
  outputTiming := "async";
  promptPrefix := EmptyString;
  promptSuffix := EmptyString
|}.

(** The hook before anything has arrived. *)
Definition fresh_hook : HookState := {|
  data := EmptyString;
  isLoading := true;
  error := None;
  dataTag := EmptyString
|}.

(** *** Streamed chunks *)

Section Streaming.

Context {num native : Type}.
Variable H : Host num native.

(** [JSON.parse]: a value, or a [SyntaxError]. *)
Variable JSON_parse : string -> completion (JSValue num native).

(** [v.toString()].  An array joins its elements with commas, [null] and
    [undefined] elements as empty text.  A field of a parsed object is data
    and no function, so an own [toString] cannot be called. *)
Fixpoint to_string (v : JSValue num native) : completion string :=
  match v with
  | JUndefined | JNull => Throw
  | JBool b => Normal (if b then "true" else "false")
  | JNum n => Normal (num_to_string H n)
  | JStr s => Normal s
  | JArr items =>
      (fix elements (l : list (JSValue num native)) : completion string :=
         match l with
         | [] => Normal EmptyString
         | x :: rest =>
             let first :=
               match x with
               | JUndefined | JNull => Normal EmptyString
               | _ => to_string x
               end in
             match first, rest with
             | Throw, _ => Throw
             | Normal a, [] => Normal a
             | Normal a, _ :: _ =>
                 match elements rest with
                 | Throw => Throw
                 | Normal b => Normal (a ++ "," ++ b)%string
                 end
             end
         end) items
  | JObj fields =>
      match own_field fields "toString" with
      | Some _ => Throw
      | None => Normal "[object Object]"
      end
  | JNative f => native_to_string H f
  end.

(** One extracted value joins the text: [const output = get(...) || "";
    if (output.toString().includes(text)) text = output.toString(); else
    text = text + output;]. *)
Definition accumulate (text : string) (extracted : JSValue num native)
  : completion string :=
  let output := if truthy H extracted then extracted else JStr EmptyString in
  match to_string output with
  | Throw => Throw
  | Normal s => Normal (if JS.includes s text then s else (text ++ s)%string)
  end.

(** [line.substring(5)] *)
Definition substring_from (n : nat) (s : string) : string :=
  String.substring n (String.length s - n) s.

(** One line of a chunk.  Whatever is raised inside the [try] is caught and
    leaves the text as it was. *)
Definition on_line (keyPath : string) (text line : string) : string :=
  if JS.includes line "data:" then
    match JSON_parse (substring_from 5 line) with
    | Throw => text
    | Normal jsonData =>
        match get H jsonData keyPath None with
        | Throw => text
        | Normal extracted =>
            match accumulate text extracted with
            | Throw => text
            | Normal text' => text'
            end
        end
    end
  else text.

(** The ["data"] handler: a chunk is lines; the handler stops the stream
    instead when [execute] is off and some text has arrived. *)
Definition on_data (keyPath : string) (execute : bool) (text chunk : string)
  : string :=
  if negb execute && (0 <? String.length text)%nat then text
  else fold_left (on_line keyPath) (JS.split JS.LF chunk) text.

(** The stream of one request.  The effect installs the ["data"] handler of
    an ok response inside [if (execute)] and returns no cleanup function, so
    the handler stays on the response through the later renders, with the
    [execute] and the [text] of its own closure. *)
Record Stream : Type := {
  captured_execute : bool;
  stream_keyPath : string;
  received : string
}.

Definition open_stream (preferences : ExtensionPreferences) (execute : bool)
  : option Stream :=
  if execute then
    if String.eqb (outputTiming preferences) "async" then
      Some {| captured_execute := execute;
              stream_keyPath := outputKeyPath preferences;
              received := EmptyString |}
    else None
  else None.

(** A chunk arrives on the stream. *)
Definition deliver (s : Stream) (chunk : string) : Stream :=
  {| captured_execute := captured_execute s;
     stream_keyPath := stream_keyPath s;
     received :=
       on_data (stream_keyPath s) (captured_execute s) (received s) chunk |}.

(** The text after a sequence of extracted values, from the empty text. *)
Definition stream_text (values : list (JSValue num native)) : string :=
  fold_left
    (fun text v => match accumulate text v with Normal t => t | Throw => text end)
    values EmptyString.

End Streaming.

End Model.

Import Model.

(** ** The chat session: CommandChatView.tsx *)

Module Chat.

(** What the view receives from its caller, and from [useFileContents]. *)
Record Props : Type := {
  prompt : string;
  response : string;
  initialQuery : option string;
  selectedFiles : option (list string);
  contentPrompts : list string
}.

(** The [useState] cells of the view. *)
Record State : Type := {
  query : string;
  sentQuery : string;
  currentResponse : string;
  previousResponse : string;
  enableModel : bool;
  queryError : option string;
  conversation : list string
}.

(** The values of the form at a submit. *)
Record FormValues : Type := {
  queryField : string;
  responseField : string;
  useFilesCheckbox : bool;
  useConversationCheckbox : bool
}.

(** The functions of its collaborators the view calls: the caller's [cancel]
    and [revalidate], and a run of the prompt the model hook starts again. *)
Inductive Call : Type :=
  | CallerCancel
  | CallerRevalidate
  | ModelRerun (text : string).

(** The form is busy, and offers Cancel in the place of Submit Query, while
    [isLoading || loading]: [isLoading] is the caller's and [loading] is the
    [isLoading] of the model hook. *)
Definition busy (isLoading loading : bool) : bool := isLoading || loading.

Definition set_enableModel (b : bool) (st : State) : State :=
  {| query := query st; sentQuery := sentQuery st;
     currentResponse := currentResponse st;
     previousResponse := previousResponse st;
     enableModel := b; queryError := queryError st;
     conversation := conversation st |}.

Definition set_queryError (e : option string) (st : State) : State :=
  {| query := query st; sentQuery := sentQuery st;
     currentResponse := currentResponse st;
     previousResponse := previousResponse st;
     enableModel := enableModel st; queryError := e;
     conversation := conversation st |}.

Definition set_currentResponse (r : string) (st : State) : State :=
  {| query := query st; sentQuery := sentQuery st;
     currentResponse := r;
     previousResponse := previousResponse st;
     enableModel := enableModel st; queryError := queryError st;
     conversation := conversation st |}.

(** The effect on [response]: [setCurrentResponse(response)]. *)
Definition on_response (response : string) (st : State) : State :=
  set_currentResponse response st.

(** The effect on [data]: [if (data.length > 0) setCurrentResponse(data)]. *)
Definition on_model_data (data : string) (st : State) : State :=
  if (0 <? String.length data)%nat then set_currentResponse data st else st.

(** The state at the first render, and after the effects of the mount: the
    one that runs once, then the one on [response], which runs at the mount
    as well and puts the response back on display. *)
Definition initial (props : Props) : State :=
  {| query := match initialQuery props with Some q => q | None => EmptyString end;
     sentQuery := EmptyString;
     currentResponse := response props;
     previousResponse := EmptyString;
     enableModel := false;
     queryError := None;
     conversation := [prompt props] |}.

Definition on_mount (props : Props) (st : State) : State :=
  match initialQuery props with
  | Some q =>
      if (0 <? String.length q)%nat then
        {| query := query st; sentQuery := q;
           currentResponse := EmptyString;
           previousResponse := response props;
           enableModel := true; queryError := None;
           conversation := [prompt props; response props] |}
      else st
  | None => st
  end.

Definition mounted (props : Props) : State :=
  on_response (response props) (on_mount props (initial props)).

(** [if (!loading && enableModel == true) setEnableModel(false)] *)
Definition on_loading (loading : bool) (st : State) : State :=
  if negb loading && enableModel st then set_enableModel false st else st.

Definition NL : string := JS.chr JS.LF.

(** The test of the trimming loop, as written:
    [values.queryField + convo.join("\n").length > 3900].  The [.length]
    belongs to the joined history alone; [+] then has a string on its left, so
    it appends the decimal form of that length to the query; [>] converts the
    resulting string to a number to compare it with 3900. *)
Definition over_budget (queryField : string) (convo : list string) : bool :=
  JS.exceeds_3900
    (JS.string_to_number
       (queryField ++ JS.string_of_length (String.length (JS.join NL convo)))).

(** [while (over budget) convo.shift();].  [shift] on an empty array does
    nothing.  [None]: the loop is still running when the fuel is spent. *)
Fixpoint trim_history (fuel : nat) (queryField : string) (convo : list string)
  : option (list string) :=
  if over_budget queryField convo then
    match fuel with
    | O => None
    | S fuel' => trim_history fuel' queryField (tl convo)
    end
  else Some convo.

(** The history after the two pushes of a submit. *)
Definition pushed (st : State) (values : FormValues) : list string :=
  conversation st ++ [responseField values] ++ [queryField values].

Section Handlers.

(** The model hook the view calls as [useModel(prompt, sentQuery, "",
    enableModel)], with what it reads from its surroundings. *)
Variable preferences : ExtensionPreferences.
Variable canAccessAI : bool.
Variable hook : HookState.

(** [runReplacements()]: the placeholders of the query, resolved by the
    view's collaborators. *)
Variable runReplacements : string -> string.

Variable props : Props.

Definition model (st : State) : Invocation :=
  useModel preferences canAccessAI hook (prompt props) (sentQuery st)
    EmptyString (enableModel st).

(** [reattempt], the [revalidate] of the model hook. *)
Definition reattempt (st : State) : list Call :=
  map (fun r => match r with RerunAI text => ModelRerun text end)
    (revalidate (model st)).

(** The requests of one render.  The effect of the model hook depends on
    [execute], [basePrompt], [input] and [prompt]: at the render that takes
    the view from the state [before] to the state [after] it runs again, and
    issues its request, when one of them has changed.  (One render: whether
    several setter calls of a handler are rendered together or one by one is
    the platform's affair and is not settled here.) *)
Definition requests_started (before after : State) : list Request :=
  if Bool.eqb (enableModel before) (enableModel after)
     && String.eqb (sentQuery before) (sentQuery after)
  then []
  else network_calls (model after).

(** The text of [setSentQuery]. *)
Definition sent_text (st : State) (values : FormValues) (subbedPrompt : string)
  : string :=
  ((if (0 <? String.length (responseField values))%nat then
      "You are an interactive chatbot, and I am giving you instructions. You will use this base prompt for context as you consider my next input. Here is the prompt: ###"
      ++ prompt props ++ "###" ++ NL ++ NL
      ++ (if useFilesCheckbox values
             && match selectedFiles props with
                | Some files => (0 <? List.length files)%nat
                | None => false
                end
          then " You will also consider the following details about selected files. Here are the file details: ###"
               ++ JS.join NL (contentPrompts props) ++ "###" ++ NL ++ NL
          else EmptyString)
      ++ (if useConversationCheckbox values
          then "You will also consider our conversation history. The history so far: ###"
               ++ JS.join NL (conversation st)
          else "You will also consider your previous response. Your previous response was: ###"
               ++ responseField values)
      ++ "###" ++ NL ++ NL ++ "My next input is: ###"
    else EmptyString)
   ++ NL ++ "                  " ++ subbedPrompt ++ "###")%string.

(** [onSubmit].  [None]: the handler is still in its loop when the fuel is
    spent. *)
Definition onSubmit (fuel : nat) (st : State) (values : FormValues)
  : option (State * list Call) :=
  if negb (0 <? String.length (queryField values))%nat then
    Some (set_queryError (Some "Query cannot be empty") st, [])
  else
    match trim_history fuel (queryField values) (pushed st values) with
    | None => None
    | Some convo =>
        let subbedPrompt := runReplacements (query st) in
        let st' :=
          {| query := query st;
             sentQuery := sent_text st values subbedPrompt;
             currentResponse := EmptyString;
             previousResponse := responseField values;
             enableModel := true;
             queryError := None;
             conversation := convo |} in
        Some (st', reattempt st)
    end.

(** The Cancel action. *)
Definition cancel (st : State) : State * list Call :=
  if (0 <? String.length (previousResponse st))%nat
  then (set_enableModel false st, [])
  else (st, [CallerCancel]).

(** The Regenerate action. *)
Definition regenerate (st : State) : State * list Call :=
  if (0 <? String.length (previousResponse st))%nat
  then (st, reattempt st)
  else (st, [CallerRevalidate]).

End Handlers.

(** A session to run examples on: the base prompt, and a first response of
    4000 characters on display. *)
Definition example_props : Props := {|
  prompt := "Summarize the text";
  response := JS.repeat_char "a" 4000;
  initialQuery := None;
  selectedFiles := None;
  contentPrompts := []
|}.

Definition example_state : State := initial example_props.

Definition example_values (q : string) : FormValues := {|
  queryField := q;
  responseField := JS.repeat_char "a" 4000;
  useFilesCheckbox := false;
  useConversationCheckbox := true
|}.

(** The same session one answered query later. *)
Definition answered_state : State := {|
  query := "And shorter?";
  sentQuery := "And shorter?";
  currentResponse := "A text.";
  previousResponse := "A longer text.";
  enableModel := true;
  queryError := None;
  conversation := ["Summarize the text"; "A longer text."; "And shorter?"]
|}.

End Chat.

Import Chat.

(** ** The responses of the endpoint: the handlers of useModel.ts *)

Module Response.

Section Handlers.

Context {num native : Type}.
Variable H : Host num native.

(** The calls of the hook's state setters, in the order they are made. *)
Inductive Setter : Type :=
  | SetData (output : JSValue num native)
  | SetIsLoading (loading : bool)
  | SetError (text : ErrorText)
  | SetDataTag (tag : string).

(** What the handlers read of a response: [ok], [statusText] and, for
    [await response.json()], the parsed body or the error it raises. *)
Record HttpResponse : Type := {
  ok : bool;
  statusText : string;
  json : completion (JSValue num native)
}.

(** The effect, before its [fetch]: [if (execute) setIsLoading(true)]. *)
Definition on_execute (execute : bool) : list Setter :=
  if execute then [SetIsLoading true] else [].

(** The [then] of the synchronous request.  Whatever [response.json()] or
    [get] raises is caught and reported as a parse error. *)
Definition on_sync_response (keyPath : string) (response : HttpResponse)
  : list Setter :=
  if ok response then
    match json response with
    | Throw => [SetError CouldNotParse]
    | Normal jsonData =>
        match get H jsonData keyPath None with
        | Throw => [SetError CouldNotParse]
        | Normal output => [SetData output; SetIsLoading false]
        end
    end
  else [SetError (StatusText (statusText response))].

(** The ["end"] handler of the streamed request: loading stops when the
    body of the request includes the flattened prompt. *)
Definition on_end (requestBody prompt : string) : list Setter :=
  if JS.includes requestBody (flatten prompt)
     || JS.includes requestBody (flatten prompt)
  then [SetIsLoading false]
  else [].

End Handlers.

Arguments SetData {num native} output.
Arguments SetIsLoading {num native} loading.
Arguments SetError {num native} text.
Arguments SetDataTag {num native} tag.

End Response.

Import Response.

(** ** The placeholders of a query: [runReplacements] of
    CommandChatView.tsx *)

Module Replacements.

(** The keyed pass: [for (const key in replacements) if
    (query.includes(key)) subbedPrompt = subbedPrompt.replaceAll(key, await
    replacements[key]())].  [replacements] lists the keys in the order of the
    loop, each with the text its resolver gives. *)
Definition keyed (replacements : list (string * string)) (query : string)
  : string :=
  fold_left
    (fun subbedPrompt entry =>
       if JS.includes query (fst entry)
       then JS.replaceAll subbedPrompt (fst entry) (snd entry)
       else subbedPrompt)
    replacements query.

Section Passes.

(** The five passes for the complex placeholders, which live in
    [utils/command-utils]: each takes the text and gives it back with its own
    placeholders replaced. *)
Variable replaceOldAppleScriptPlaceholders : string -> string.
Variable replaceAppleScriptPlaceholders : string -> string.
Variable replaceShellScriptPlaceholders : string -> string.
Variable replaceURLPlaceholders : string -> string.
Variable replaceFileSelectionPlaceholders : string -> string.

Definition runReplacements (replacements : list (string * string))
  (query : string) : string :=
  let subbedPrompt := keyed replacements query in
  let subbedPrompt := replaceOldAppleScriptPlaceholders subbedPrompt in
  let subbedPrompt := replaceAppleScriptPlaceholders subbedPrompt in
  let subbedPrompt := replaceShellScriptPlaceholders subbedPrompt in
  let subbedPrompt := replaceURLPlaceholders subbedPrompt in
  let subbedPrompt := replaceFileSelectionPlaceholders subbedPrompt in
  subbedPrompt.

End Passes.

End Replacements.

(** ** The store: discover-commands.tsx *)

Module Discover.

(** The installed commands: the values of the local storage whose key does
    not start with [--] or [id-], in the order of the storage. *)
Definition is_command_key (key : string) : bool :=
  negb (JS.startsWith key "--") && negb (JS.startsWith key "id-").

Definition installed_data (items : list (string * string)) : list string :=
  map snd (filter (fun entry => is_command_key (fst entry)) items).

Section Listing.

(** A command of the store, with the two fields the listing reads, and the
    list item it is rendered as. *)
Variable StoreCommand : Type.
Variable categories : StoreCommand -> option string.
Variable command_prompt : StoreCommand -> string.
Variable Item : Type.
Variable render : StoreCommand -> Item.

(** [command.categories?.split(", ").includes(targetCategory) ||
    targetCategory == "All"] *)
Definition in_category (targetCategory : string) (command : StoreCommand)
  : bool :=
  match categories command with
  | Some c => JS.array_includes (JS.split_by ", " c) targetCategory
  | None => false
  end
  || String.eqb targetCategory "All".

Definition listItems (targetCategory : string)
  (availableCommands : list StoreCommand) : list Item :=
  map render (filter (in_category targetCategory) availableCommands).

(** The two sections: [listItems.slice(0, 5)] and [listItems.slice(5)]. *)
Definition newest (items : list Item) : list Item := firstn 5 items.
Definition older (items : list Item) : list Item := skipn 5 items.

(** [knownPrompts?.includes(command.prompt)]: the mark of an installed
    command. *)
Definition is_installed (knownPrompts : option (list string))
  (command : StoreCommand) : bool :=
  match knownPrompts with
  | Some prompts => JS.array_includes prompts (command_prompt command)
  | None => false
  end.

End Listing.

End Discover.

(** ** Shapes of texts, to state what the flattening guarantees *)

Module Shape.

Definition starts_with_space (s : string) : bool :=
  match s with
  | String c _ => Ascii.eqb c " "
  | EmptyString => false
  end.

(** The only white space in [s] is the space character, and no space
    follows another. *)
Fixpoint single_spaced (s : string) : bool :=
  match s with
  | EmptyString => true
  | String c s' =>
      (negb (JS.is_space c) || (Ascii.eqb c " " && negb (starts_with_space s')))
      && single_spaced s'
  end.

(** Every double quote of [s] stands right after a backslash;
    [after_backslash] tells that the character before [s] is one. *)
Fixpoint quotes_escaped_from (after_backslash : bool) (s : string) : bool :=
  match s with
  | EmptyString => true
  | String c s' =>
      (negb (Ascii.eqb c JS.DQUOTE) || after_backslash)
      && quotes_escaped_from (Ascii.eqb c JS.BACKSLASH) s'
  end.

Definition quotes_escaped (s : string) : bool := quotes_escaped_from false s.

(** Snapshots: every chunk contains the one before it ([prev] before the
    first). *)
Fixpoint snapshots (prev : string) (chunks : list string) : Prop :=
  match chunks with
  | [] => True
  | chunk :: rest => JS.occurs_in prev chunk /\ snapshots chunk rest
  end.

(** Deltas that are each shorter than the text they join, a text of [n]
    characters to start with. *)
Fixpoint short_deltas (n : nat) (chunks : list string) : Prop :=
  match chunks with
  | [] => True
  | chunk :: rest =>
      String.length chunk < n /\ short_deltas (n + String.length chunk) rest
  end.

End Shape.

(** * Properties *)

(** ** JavaScript strings *)

Lemma length_zero_iff s :
  (String.length s =? 0)%nat = true <-> s = EmptyString.
Proof. destruct s; simpl; split; congruence. Qed.

Lemma length_pos_iff s :
  (0 <? String.length s)%nat = true <-> s <> EmptyString.
Proof.
  destruct s as [|c s].
  - split; [discriminate | intros Hne; now elim Hne].
  - split; [discriminate | reflexivity].
Qed.

Lemma strip_prefix_spec p s r :
  JS.strip_prefix p s = Some r <-> s = (p ++ r)%string.
Proof.
  revert s. induction p as [|a p IH]; intros s; simpl.
  - split; [intros [= ->] | intros ->]; reflexivity.
  - destruct s as [|b s]; [split; discriminate |].
    destruct (Ascii.eqb_spec a b) as [-> | Hne].
    + rewrite IH. split; [intros -> | intros [= ->]]; reflexivity.
    + split; [discriminate | intros [= E _]; congruence].
Qed.

Lemma includes_unfold s t :
  JS.includes s t =
  match JS.strip_prefix t s with
  | Some _ => true
  | None =>
      match s with
      | EmptyString => false
      | String _ s' => JS.includes s' t
      end
  end.
Proof. destruct s; reflexivity. Qed.

Lemma includes_spec s t :
  JS.includes s t = true <-> JS.occurs_in t s.
Proof.
  unfold JS.occurs_in. split.
  - induction s as [|c s IH]; simpl.
    + destruct (JS.strip_prefix t EmptyString) as [r|] eqn:E; [|discriminate].
      intros _. apply strip_prefix_spec in E. now exists EmptyString, r.
    + destruct (JS.strip_prefix t (String c s)) as [r|] eqn:E.
      * intros _. apply strip_prefix_spec in E. now exists EmptyString, r.
      * intros Hin. destruct (IH Hin) as [a [b ->]].
        now exists (String c a), b.
  - intros [a [b ->]]. induction a as [|c a IH]; rewrite includes_unfold.
    + simpl append.
      now rewrite (proj2 (strip_prefix_spec t (t ++ b) b) eq_refl).
    + destruct (JS.strip_prefix t (String c a ++ t ++ b)); [reflexivity | exact IH].
Qed.

Lemma includes_false s t :
  JS.includes s t = false <-> ~ JS.occurs_in t s.
Proof.
  rewrite <- includes_spec. destruct (JS.includes s t); split; congruence.
Qed.

(** A replacement text without a dollar sign is used as it is. *)
Lemma get_substitution_literal matched before after repl :
  JS.free_of "$" repl = true ->
  JS.get_substitution matched before after repl = repl.
Proof.
  induction repl as [|c r IH]; simpl; [reflexivity |].
  destruct (Ascii.eqb c "$"); simpl; [discriminate |].
  intros Hfree. now rewrite IH.
Qed.

Lemma find_first_spec s pat before after :
  JS.find_first s pat = Some (before, after) ->
  s = (before ++ pat ++ after)%string.
Proof.
  revert before. induction s as [|c s IH]; intros before; simpl.
  - destruct (JS.strip_prefix pat EmptyString) eqn:E; [|discriminate].
    intros [= <- <-]. now apply strip_prefix_spec in E.
  - destruct (JS.strip_prefix pat (String c s)) eqn:E.
    + intros [= <- <-]. now apply strip_prefix_spec in E.
    + destruct (JS.find_first s pat) as [[b a]|]; [|discriminate].
      intros [= <- <-]. simpl. f_equal. now apply IH.
Qed.

(** [replace] puts the replacement text in the place of the first
    occurrence, when that text holds no dollar sign. *)
Lemma replace_literal s pat repl before after :
  JS.find_first s pat = Some (before, after) ->
  JS.free_of "$" repl = true ->
  JS.replace s pat repl = (before ++ repl ++ after)%string.
Proof.
  intros Hfind Hfree. unfold JS.replace. rewrite Hfind.
  now rewrite get_substitution_literal.
Qed.

Lemma replace_absent s pat repl :
  JS.find_first s pat = None -> JS.replace s pat repl = s.
Proof. intros Hfind. unfold JS.replace. now rewrite Hfind. Qed.

(** A string that starts with a letter converts to [NaN] (the one string
    [Infinity] apart, hence no [I]). *)
Lemma string_to_number_word c rest :
  JS.starts_word c = true ->
  JS.string_to_number (String c rest) = JS.NaN.
Proof.
  intros Hword.
  assert (Htrim : JS.trim (String c rest) = String c (JS.trimEnd rest)).
  { destruct c as [[] [] [] [] [] [] [] []]; try discriminate Hword; reflexivity. }
  unfold JS.string_to_number. rewrite Htrim.
  destruct c as [[] [] [] [] [] [] [] []]; try discriminate Hword;
    destruct (JS.trimEnd rest); reflexivity.
Qed.

Lemma length_append_le a b :
  String.length a <= String.length (a ++ b).
Proof. induction a as [|c a IH]; simpl; lia. Qed.

(** The capture of the bracket pattern is all of [idx] when [idx] is not
    empty, holds no closing brace, and the closing bracket behind it is the
    last character. *)
Lemma bracket_body_idx idx :
  idx <> EmptyString ->
  JS.free_of "}" idx = true ->
  JS.bracket_body (idx ++ "]") = Some (idx, EmptyString).
Proof.
  induction idx as [|c idx IH]; [congruence |].
  intros _ Hfree. simpl in Hfree. apply andb_true_iff in Hfree.
  destruct Hfree as [Hc Hfree]. apply negb_true_iff in Hc.
  simpl. rewrite Hc.
  destruct idx as [|d idx].
  - simpl. destruct (Ascii.eqb "]" "}"); reflexivity.
  - now rewrite IH.
Qed.

Lemma split_brackets_from_name_idx name idx fuel :
  JS.free_of "[" name = true ->
  idx <> EmptyString ->
  JS.free_of "}" idx = true ->
  String.length name < fuel ->
  JS.split_brackets_from fuel (name ++ String "[" (idx ++ "]"))
  = [name; idx; EmptyString].
Proof.
  intros Hname Hidx Hfree. revert fuel.
  induction name as [|c name IH]; intros fuel Hfuel;
    (destruct fuel as [|fuel]; [simpl in Hfuel; lia |]).
  - simpl. rewrite (bracket_body_idx idx Hidx Hfree).
    destruct fuel; reflexivity.
  - simpl in Hname. apply andb_true_iff in Hname.
    destruct Hname as [Hc Hname]. apply negb_true_iff in Hc.
    simpl. rewrite Hc.
    rewrite (IH Hname fuel) by (simpl in Hfuel; lia). reflexivity.
Qed.

(** A segment [name[idx]] is split into [name] and [idx] (and the empty
    text behind the bracket), when [name] holds no opening bracket and [idx]
    is not empty and holds no closing brace. *)
Lemma split_brackets_name_idx name idx :
  JS.free_of "[" name = true ->
  idx <> EmptyString ->
  JS.free_of "}" idx = true ->
  JS.split_brackets (name ++ "[" ++ idx ++ "]") = [name; idx; EmptyString].
Proof.
  intros Hname Hidx Hfree. unfold JS.split_brackets.
  apply (split_brackets_from_name_idx name idx); trivial.
  pose proof (length_append_le name ("[" ++ idx ++ "]")). lia.
Qed.

(** ** The key-path extractor *)

Section KeyPathFacts.

Context {num native : Type}.
Variable H : Host num native.

Local Abbreviation value := (JSValue num native).

Lemma descend_nil (current : value) def :
  descend H current [] def = Normal current.
Proof. reflexivity. Qed.

Lemma descend_truthy (current w : value) key rest def :
  get_prop H current key = Normal w ->
  truthy H w = true ->
  descend H current (key :: rest) def = descend H w rest def.
Proof.
  intros Hread Htrue. simpl. rewrite Hread, Htrue. reflexivity.
Qed.

Lemma descend_falsy (current w : value) key rest def :
  get_prop H current key = Normal w ->
  truthy H w = false ->
  descend H current (key :: rest) def = Normal (def_value def).
Proof.
  intros Hread Hfalse. simpl. rewrite Hread, Hfalse. reflexivity.
Qed.

Lemma descend_reaches (obj cur : value) pre rest def :
  reaches H obj pre cur ->
  descend H obj (pre ++ rest) def = descend H cur rest def.
Proof.
  induction 1 as [v | v key w keys u Hread Htrue _ IH]; simpl app.
  - reflexivity.
  - rewrite (descend_truthy v w key _ def Hread Htrue). exact IH.
Qed.

(** A read raises only on [null] and [undefined], or inside an inherited
    accessor. *)
Lemma get_prop_throw (current : value) key :
  get_prop H current key = Throw ->
  current = JNull \/ current = JUndefined \/ inherited H current key = Throw.
Proof.
  destruct current; simpl; intros Hthrow; auto.
  - destruct (array_index key) as [i|].
    + destruct (char_at s i); [discriminate | auto].
    + destruct (String.eqb key "length"); [discriminate | auto].
  - destruct (array_index key) as [i|].
    + destruct (nth_error items i); [discriminate | auto].
    + destruct (String.eqb key "length"); [discriminate | auto].
  - destruct (own_field fields key); [discriminate | auto].
Qed.

Lemma truthy_not_null (v : value) :
  truthy H v = true -> v <> JNull /\ v <> JUndefined.
Proof.
  destruct v; simpl; intros Ht; split; congruence.
Qed.

Lemma descend_no_throw (current : value) path def :
  (forall v key, inherited H v key <> Throw) ->
  current <> JNull -> current <> JUndefined ->
  descend H current path def <> Throw.
Proof.
  intros Hinh. revert current.
  induction path as [|key rest IH]; intros current Hnull Hundef; simpl.
  - discriminate.
  - destruct (get_prop H current key) as [w|] eqn:Hread.
    + destruct (truthy H w) eqn:Htrue; simpl.
      * destruct (truthy_not_null w Htrue). now apply IH.
      * discriminate.
    + destruct (get_prop_throw current key Hread) as [E | [E | E]];
        [contradiction | contradiction | now apply Hinh in E].
Qed.

Lemma descend_falsy_value (current : value) path def :
  Exists (fun v => truthy H v = false) (path_values H current path) ->
  descend H current path def = Normal (def_value def).
Proof.
  revert current.
  induction path as [|key rest IH]; intros current Hex; simpl in Hex.
  - inversion Hex.
  - destruct (get_prop H current key) as [w|] eqn:Hread.
    + destruct (truthy H w) eqn:Htrue.
      * rewrite (descend_truthy current w key rest def Hread Htrue).
        apply IH. inversion Hex as [? ? Hhead | ? ? Htail]; subst.
        -- congruence.
        -- exact Htail.
      * now apply descend_falsy with (w := w).
    + inversion Hex.
Qed.

Lemma descend_no_throw_reads (current : value) path def :
  current <> JNull -> current <> JUndefined ->
  (forall pre key post cur,
      path = pre ++ key :: post ->
      reaches H current pre cur ->
      inherited H cur key <> Throw) ->
  descend H current path def <> Throw.
Proof.
  revert current.
  induction path as [|key rest IH]; intros current Hnull Hundef Hreads; simpl.
  - discriminate.
  - destruct (get_prop H current key) as [w|] eqn:Hread.
    + destruct (truthy H w) eqn:Htrue; simpl; [|discriminate].
      destruct (truthy_not_null w Htrue) as [Hn Hu]. apply IH; trivial.
      intros pre k post cur Hpath Hreach.
      apply (Hreads (key :: pre) k post cur).
      * simpl. now rewrite Hpath.
      * now apply reaches_step with (w := w).
    + destruct (get_prop_throw current key Hread) as [E | [E | E]];
        [contradiction | contradiction |].
      elim (Hreads [] key rest current eq_refl (reaches_here H current)).
      exact E.
Qed.

(** C2 (amended).  A value that is not of type object (a string, a number,
    a boolean) is returned as it is, whatever the path.  On an object or an
    array, the default is returned as soon as the read of a token on the
    current value gives [undefined], that is when the token is neither an own
    key or index of the current value nor inherited; no partial value is
    returned.  And nothing is raised on a value other than [null], as long as
    none of the reads the traversal makes, of a token on the value it has then
    arrived at, ends in an inherited accessor that raises. *)
Theorem get_missing_key_default (obj : value) pathString def :
  (typeof_object H obj = false -> get H obj pathString def = Normal obj)
  /\ (forall pre key post cur,
        typeof_object H obj = true ->
        path_of pathString = pre ++ key :: post ->
        reaches H obj pre cur ->
        get_prop H cur key = Normal JUndefined ->
        get H obj pathString def = Normal (def_value def))
  /\ (obj <> JNull ->
      (forall pre key post cur,
          path_of pathString = pre ++ key :: post ->
          reaches H obj pre cur ->
          inherited H cur key <> Throw) ->
      get H obj pathString def <> Throw).
Proof.
  unfold get. repeat split.
  - intros Hty. now rewrite Hty.
  - intros pre key post cur Hty Hpath Hreach Hread.
    rewrite Hty, Hpath, (descend_reaches obj cur pre _ def Hreach).
    now apply descend_falsy with (w := JUndefined).
  - intros Hnull Hreads. destruct (typeof_object H obj) eqn:Hty.
    + apply descend_no_throw_reads; trivial.
      intros ->. discriminate.
    + discriminate.
Qed.

(** C10.  On an object, if one of the values the path meets is falsy, the
    result is the default and not that value, also when the key is there. *)
Theorem get_falsy_value_default (obj : value) pathString def :
  typeof_object H obj = true ->
  Exists (fun v => falsy H v = true) (path_values H obj (path_of pathString)) ->
  get H obj pathString def = Normal (def_value def).
Proof.
  intros Hty Hex. unfold get. rewrite Hty.
  apply descend_falsy_value.
  apply Exists_exists in Hex. destruct Hex as [v [Hin Hf]].
  apply Exists_exists. exists v. split; trivial.
  unfold falsy in Hf. now destruct (truthy H v).
Qed.

(** The empty string, [false] and [null] are falsy, and a number is when the
    host says so (0 is); a key that is present is read as its value. *)
Lemma falsy_values :
  falsy H (JStr EmptyString) = true
  /\ falsy H (JBool false) = true
  /\ falsy H JNull = true
  /\ forall n, falsy H (JNum n) = negb (num_truthy H n).
Proof. repeat split. Qed.

Lemma get_prop_own_field fields key (v : value) :
  own_field fields key = Some v ->
  get_prop H (JObj fields) key = Normal v.
Proof. intros Hown. simpl. now rewrite Hown. Qed.

(** The scenario of the specification: [choices[0].text] in
    [{"choices":[{"text":"ok"}]}] is ["ok"]. *)
Lemma get_choices_text def :
  get H (JObj [("choices", JArr [JObj [("text", JStr "ok")]])])
    "choices[0].text" def
  = Normal (JStr "ok").
Proof. reflexivity. Qed.

End KeyPathFacts.

Lemma node_host_raises_only_on_accessors v key :
  key <> "caller" -> key <> "arguments" ->
  inherited node_host v key <> Throw.
Proof.
  intros Hcaller Harguments. simpl.
  destruct v; try discriminate.
  - destruct (String.eqb key "constructor"); discriminate.
  - destruct (String.eqb key "constructor"); discriminate.
  - destruct (String.eqb_spec key "caller"); [contradiction |].
    destruct (String.eqb_spec key "arguments"); [contradiction |].
    simpl. destruct (String.eqb key "name"); discriminate.
Qed.

(** On that host a path can leave the data through what an object inherits:
    [constructor.name] on [{}] is the text [Object], and [constructor.caller]
    raises, on a value that is not [null]. *)
Lemma get_inherited_members :
  get node_host (JObj []) "constructor.name" (Some "D") = Normal (JStr "Object")
  /\ get node_host (JObj []) "constructor.caller" (Some "D") = Throw.
Proof. split; reflexivity. Qed.

(** C2, witness, on the host with inherited members: in [{"a": {}}] the key
    [b] is missing under [a]; the number 7 is no object; and the path
    [a.constructor.name] goes through the data and then through the inherited
    [constructor] and its [name], none of which is an accessor that raises, so
    nothing is raised. *)
Lemma get_missing_key_default_witness :
  get node_host (JObj [("a", JObj [])]) "a.b"
    (Some "none")
  = Normal (JStr "none")
  /\ get node_host (JNum 7%Z) "a.b" (Some "none") = Normal (JNum 7%Z)
  /\ get node_host (JObj [("a", JObj [])])
       "a.constructor.name" (Some "none") <> Throw.
Proof.
  split; [|split].
  - apply (proj1 (proj2 (get_missing_key_default node_host
                           (JObj [("a", JObj [])])
                           "a.b" (Some "none")))
             ["a"] "b" [] (JObj [])).
    + reflexivity.
    + reflexivity.
    + apply reaches_step with (w := JObj []);
        [reflexivity | reflexivity |].
      apply reaches_here.
    + reflexivity.
  - apply (proj1 (get_missing_key_default node_host
                    (JNum 7%Z) "a.b" (Some "none"))).
    reflexivity.
  - apply (proj2 (proj2 (get_missing_key_default node_host
                           (JObj [("a", JObj [])])
                           "a.constructor.name" (Some "none")))).
    + discriminate.
    + intros pre key post cur Hpath Hreach.
      apply node_host_raises_only_on_accessors.
      * intros ->.
        assert (Hin : In "caller" (@path_of "a.constructor.name"))
          by (rewrite Hpath; apply in_elt).
        simpl in Hin. intuition discriminate.
      * intros ->.
        assert (Hin : In "arguments" (@path_of "a.constructor.name"))
          by (rewrite Hpath; apply in_elt).
        simpl in Hin. intuition discriminate.
Defined.

(** C2, counterexample.  A string is no object or array and holds no key
    [a], yet it comes back itself and not the default; the [length] of a
    string met on the way is read as a partial value; and [null] raises. *)
Lemma get_not_default_counterexample :
  get plain_host (JStr "hello") "a" (Some "D") = Normal (JStr "hello")
  /\ get plain_host (JObj [("a", JStr "xyz")]) "a.length" (Some "D")
     = Normal (JNum 3%Z)
  /\ get plain_host JNull "a" (Some "D") = Throw.
Proof. repeat split. Qed.

(** C10, witness: the key [a] is present and holds the empty string. *)
Lemma get_falsy_value_default_witness :
  get plain_host (JObj [("a", JStr EmptyString)]) "a" (Some "D")
  = Normal (JStr "D").
Proof.
  apply (get_falsy_value_default plain_host
           (JObj [("a", JStr EmptyString)]) "a" (Some "D")).
  - reflexivity.
  - apply Exists_cons_hd. reflexivity.
Defined.

(** C6, at the failing input.  Two bracket groups in one segment are one
    match of the pattern, whose capture runs from the first opening bracket to
    the last closing one: the path [a[0][1]] has the two keys [a] and [0][1],
    where the specification's words give [a], [0] and [1]; so the element at
    [a[0][1]] is not found. *)
Theorem path_of_chained_brackets :
  path_of "a[0][1]" = ["a"; "0][1"]
  /\ spec_path_of "a[0][1]" = ["a"; "0"; "1"]
  /\ get plain_host
       (JObj [("a", JArr [JArr [JNum 5%Z; JNum 6%Z]])]) "a[0][1]" None
     = Normal JUndefined
  /\ descend plain_host
       (JObj [("a", JArr [JArr [JNum 5%Z; JNum 6%Z]])]) ["a"; "0"; "1"] None
     = Normal (JNum 6%Z).
Proof. repeat split. Qed.

(** ** The endpoint invoker *)

Section ModelFacts.

Context {num native : Type}.
Variable H : Host num native.

Lemma accumulate_string text chunk :
  accumulate H text (JStr chunk)
  = Normal (if JS.includes chunk text then chunk else (text ++ chunk)%string).
Proof.
  unfold accumulate. destruct chunk as [|c chunk]; reflexivity.
Qed.

Lemma stream_text_snoc (values : list (JSValue num native)) v :
  stream_text H (values ++ [v])
  = match accumulate H (stream_text H values) v with
    | Normal t => t
    | Throw => stream_text H values
    end.
Proof.
  unfold stream_text. now rewrite fold_left_app.
Qed.

(** C3.  A chunk that contains the text so far replaces it, any other
    chunk is appended to it, chunk after chunk from the empty text; so [He]
    then [Hello] gives [Hello], and so does [He] then [llo]. *)
Theorem stream_accumulation :
  (forall text chunk,
      JS.occurs_in text chunk ->
      accumulate H text (JStr chunk) = Normal chunk)
  /\ (forall text chunk,
        ~ JS.occurs_in text chunk ->
        accumulate H text (JStr chunk) = Normal (text ++ chunk)%string)
  /\ (forall chunks chunk,
        stream_text H (map JStr (chunks ++ [chunk]))
        = if JS.includes chunk (stream_text H (map JStr chunks))
          then chunk
          else (stream_text H (map JStr chunks) ++ chunk)%string)
  /\ stream_text H [JStr "He"; JStr "Hello"] = "Hello"
  /\ stream_text H [JStr "He"; JStr "llo"] = "Hello".
Proof.
  split; [|split; [|split; [|split]]].
  - intros text chunk Hocc. rewrite accumulate_string.
    apply includes_spec in Hocc. now rewrite Hocc.
  - intros text chunk Hocc. rewrite accumulate_string.
    apply includes_false in Hocc. now rewrite Hocc.
  - intros chunks chunk.
    rewrite map_app. simpl map.
    now rewrite stream_text_snoc, accumulate_string.
  - reflexivity.
  - reflexivity.
Qed.

End ModelFacts.

(** C3, witness: [He] occurs in [Hello], and does not occur in [llo]. *)
Lemma stream_accumulation_witness :
  accumulate plain_host "He" (JStr "Hello") = Normal "Hello"
  /\ accumulate plain_host "He" (JStr "llo") = Normal "Hello".
Proof.
  split.
  - apply (proj1 (stream_accumulation plain_host)).
    exists EmptyString, "llo". reflexivity.
  - apply (proj1 (proj2 (stream_accumulation plain_host)) "He" "llo").
    intros Hocc. apply includes_spec in Hocc. discriminate Hocc.
Defined.

(** C4, at the failing input.  With the body [{"q":"{prompt}"}] the prompt
    [hi], a line break, [there] gives [{"q":"hi there"}].  But the prompt goes
    in as the replacement text of [replace], in which a dollar sign is a
    pattern: the prompt [pay $$5] arrives as [pay $5], in the prompt
    [What is '$'?] the dollar sign and the quote after it become the rest of
    the body, and the prompt [$&] arrives as the token [{prompt}] itself.  Only the first occurrence of a token is
    replaced as well. *)
Theorem sync_body_dollar_patterns :
  sync_body example_preferences EmptyString
    ("hi" ++ JS.chr JS.LF ++ "there") EmptyString
  = ("{" ++ JS.quoted "q" ++ ":" ++ JS.quoted "hi there" ++ "}")%string
  /\ sync_body example_preferences EmptyString "pay $$5" EmptyString
     = ("{" ++ JS.quoted "q" ++ ":" ++ JS.quoted "pay $5" ++ "}")%string
  /\ sync_body example_preferences EmptyString "What is '$'?" EmptyString
     = ("{" ++ JS.quoted "q" ++ ":" ++ JS.quoted ("What is '" ++ JS.chr JS.DQUOTE ++ "}?") ++ "}")%string
  /\ sync_body example_preferences EmptyString "$&" EmptyString
     = ("{" ++ JS.quoted "q" ++ ":" ++ JS.quoted "{prompt}" ++ "}")%string
  /\ JS.replace "{prompt} and {prompt}" "{prompt}" "hi" = "hi and {prompt}".
Proof. repeat split; reflexivity. Qed.

(** What the claim says of the body does hold for a body with the one token
    [{prompt}] and a prompt without a dollar sign: the token is replaced by
    prefix, flattened prompt and suffix. *)
Lemma sync_body_prompt_only preferences basePrompt prompt input before after :
  JS.find_first (inputSchema preferences) "{prompt}" = Some (before, after) ->
  JS.free_of "$"
    (promptPrefix preferences ++ flatten prompt ++ promptSuffix preferences) = true ->
  JS.find_first
    (before ++ (promptPrefix preferences ++ flatten prompt
                ++ promptSuffix preferences) ++ after)
    "{basePrompt}" = None ->
  JS.find_first
    (before ++ (promptPrefix preferences ++ flatten prompt
                ++ promptSuffix preferences) ++ after)
    "{input}" = None ->
  sync_body preferences basePrompt prompt input
  = (before ++ (promptPrefix preferences ++ flatten prompt
                ++ promptSuffix preferences) ++ after)%string.
Proof.
  intros Hprompt Hfree Hbase Hinput. unfold sync_body.
  rewrite (replace_literal _ _ _ before after Hprompt Hfree).
  rewrite (replace_absent _ _ _ Hbase).
  now rewrite (replace_absent _ _ _ Hinput).
Qed.

(** C9 (amended).  With an endpoint that is, in lower case, one of the
    names of Raycast AI, without access to the AI, and with a base prompt or a
    prompt that is not empty, the hook returns at once the error that Raycast
    AI is not available, with empty data, and issues no request. *)
Theorem native_ai_unavailable preferences state basePrompt prompt input execute :
  JS.array_includes validRaycastAIReps
    (JS.toLowerCase (modelEndpoint preferences)) = true ->
  basePrompt <> EmptyString \/ prompt <> EmptyString ->
  useModel preferences false state basePrompt prompt input execute
  = Returned {| view_data := EmptyString; view_isLoading := false;
                view_error := Some RaycastAIUnavailable;
                view_dataTag := None |}
  /\ network_calls
       (useModel preferences false state basePrompt prompt input execute) = [].
Proof.
  intros Halias Hprompt.
  assert (Hempty : ((String.length basePrompt =? 0)%nat
                    && (String.length prompt =? 0)%nat) = false).
  { apply andb_false_iff.
    destruct Hprompt as [Hne | Hne]; [left | right];
      (destruct (String.length _ =? 0)%nat eqn:E; [|reflexivity]);
      apply length_zero_iff in E; contradiction. }
  unfold useModel. rewrite Hempty, Halias. simpl. split; reflexivity.
Qed.

(** C9, witness: the endpoint [Raycast AI] and the prompt [Hello]. *)
Lemma native_ai_unavailable_witness :
  useModel raycast_preferences false fresh_hook
    "Summarize this" "Hello" EmptyString true
  = Returned {| view_data := EmptyString; view_isLoading := false;
                view_error := Some RaycastAIUnavailable;
                view_dataTag := None |}
  /\ network_calls
       (useModel raycast_preferences false fresh_hook
          "Summarize this" "Hello" EmptyString true) = [].
Proof.
  apply (native_ai_unavailable raycast_preferences fresh_hook
           "Summarize this" "Hello" EmptyString true).
  - reflexivity.
  - left. discriminate.
Defined.

(** C9, counterexample: when the base prompt and the prompt are both empty
    the error is the one of the empty prompt, whatever the endpoint. *)
Lemma native_ai_empty_prompt_counterexample :
  JS.array_includes validRaycastAIReps
    (JS.toLowerCase (modelEndpoint raycast_preferences)) = true
  /\ useModel raycast_preferences false fresh_hook
       EmptyString EmptyString EmptyString true
     = Returned {| view_data := EmptyString; view_isLoading := false;
                   view_error := Some PromptCannotBeEmpty;
                   view_dataTag := None |}.
Proof. split; reflexivity. Qed.

(** ** The chat session *)

Section ChatFacts.

Variable preferences : ExtensionPreferences.
Variable canAccessAI : bool.
Variable hook : HookState.
Variable runReplacements : string -> string.
Variable props : Props.

(** An invocation that is not to execute issues no request. *)
Lemma useModel_idle_no_calls p access h basePrompt text input :
  network_calls (useModel p access h basePrompt text input false) = [].
Proof.
  unfold useModel.
  destruct (_ && _); [reflexivity |].
  destruct (JS.array_includes _ _).
  - destruct access; reflexivity.
  - destruct (JS.includes _ _); reflexivity.
Qed.

(** What Cancel does to the view.  With a previous response it only
    switches the model off: the caller's [cancel] is not called, the render
    that follows issues no request, and the previous response, the response on
    display, the sent query and the history are what they were.  Without one,
    Cancel is the caller's [cancel] and the state is untouched. *)
Lemma cancel_keeps_previous_response (st : State) :
  (previousResponse st <> EmptyString ->
   snd (cancel st) = []
   /\ enableModel (fst (cancel st)) = false
   /\ previousResponse (fst (cancel st)) = previousResponse st
   /\ currentResponse (fst (cancel st)) = currentResponse st
   /\ sentQuery (fst (cancel st)) = sentQuery st
   /\ conversation (fst (cancel st)) = conversation st
   /\ requests_started preferences canAccessAI hook props st (fst (cancel st)) = [])
  /\ (previousResponse st = EmptyString ->
      cancel st = (st, [CallerCancel])).
Proof.
  unfold cancel. split.
  - intros Hprev. apply length_pos_iff in Hprev. rewrite Hprev. simpl.
    repeat split.
    unfold requests_started, model. simpl.
    destruct (Bool.eqb _ _ && _); [reflexivity |].
    apply useModel_idle_no_calls.
  - intros ->. reflexivity.
Qed.

(** C8.  A submit with an empty query sets the error of the query field and
    nothing else: the handler returns before its loop, calls no collaborator,
    leaves the previous response, the response on display, the history, the
    sent query and the model switch as they were, and so no request is
    issued. *)
Theorem submit_empty_query_rejected fuel (st : State) (values : FormValues) :
  queryField values = EmptyString ->
  onSubmit preferences canAccessAI hook runReplacements props fuel st values
  = Some (set_queryError (Some "Query cannot be empty") st, [])
  /\ previousResponse (set_queryError (Some "Query cannot be empty") st)
     = previousResponse st
  /\ currentResponse (set_queryError (Some "Query cannot be empty") st)
     = currentResponse st
  /\ conversation (set_queryError (Some "Query cannot be empty") st)
     = conversation st
  /\ enableModel (set_queryError (Some "Query cannot be empty") st)
     = enableModel st
  /\ sentQuery (set_queryError (Some "Query cannot be empty") st)
     = sentQuery st
  /\ requests_started preferences canAccessAI hook props st
       (set_queryError (Some "Query cannot be empty") st) = [].
Proof.
  intros Hq. unfold onSubmit. rewrite Hq. simpl.
  repeat split.
  unfold requests_started. simpl.
  now rewrite Bool.eqb_reflx, String.eqb_refl.
Qed.

(** Regenerate never touches the state. *)
Lemma regenerate_state (st : State) :
  fst (regenerate preferences canAccessAI hook props st) = st.
Proof. unfold regenerate. now destruct (0 <? _)%nat. Qed.

(** Without a previous response Regenerate is the caller's [revalidate]. *)
Lemma regenerate_first_request (st : State) :
  previousResponse st = EmptyString ->
  regenerate preferences canAccessAI hook props st = (st, [CallerRevalidate]).
Proof. intros Hprev. unfold regenerate. now rewrite Hprev. Qed.

(** X26.  With a previous response, on Raycast AI, Regenerate runs the sent
    query again, between prefix and suffix. *)
Lemma regenerate_native (st : State) :
  previousResponse st <> EmptyString ->
  prompt props <> EmptyString ->
  JS.array_includes validRaycastAIReps
    (JS.toLowerCase (modelEndpoint preferences)) = true ->
  canAccessAI = true ->
  regenerate preferences canAccessAI hook props st
  = (st, [ModelRerun (promptPrefix preferences ++ sentQuery st
                      ++ promptSuffix preferences)%string]).
Proof.
  intros Hprev Hprompt Halias Haccess. unfold regenerate.
  apply length_pos_iff in Hprev. rewrite Hprev.
  unfold reattempt, model, useModel.
  destruct (String.length (prompt props) =? 0)%nat eqn:E.
  - apply length_zero_iff in E. contradiction.
  - cbn [andb]. rewrite Halias, Haccess. reflexivity.
Qed.

(** X27.  With a previous response, on any other endpoint, Regenerate does
    nothing: the [revalidate] of the hook is [() => null] there. *)
Lemma regenerate_other_endpoint (st : State) :
  previousResponse st <> EmptyString ->
  JS.array_includes validRaycastAIReps
    (JS.toLowerCase (modelEndpoint preferences)) = false ->
  regenerate preferences canAccessAI hook props st = (st, []).
Proof.
  intros Hprev Halias. unfold regenerate.
  apply length_pos_iff in Hprev. rewrite Hprev.
  unfold reattempt, model, useModel. rewrite Halias.
  destruct (_ && _); [reflexivity |].
  destruct (JS.includes _ _); reflexivity.
Qed.

End ChatFacts.

(** C8, witness: an empty query in a session with a previous response. *)
Lemma submit_empty_query_rejected_witness :
  onSubmit example_preferences true fresh_hook (fun q => q) example_props 0
    answered_state (example_values EmptyString)
  = Some (set_queryError (Some "Query cannot be empty") answered_state, [])
  /\ previousResponse (set_queryError (Some "Query cannot be empty") answered_state)
     = previousResponse answered_state
  /\ currentResponse (set_queryError (Some "Query cannot be empty") answered_state)
     = currentResponse answered_state
  /\ conversation (set_queryError (Some "Query cannot be empty") answered_state)
     = conversation answered_state
  /\ enableModel (set_queryError (Some "Query cannot be empty") answered_state)
     = enableModel answered_state
  /\ sentQuery (set_queryError (Some "Query cannot be empty") answered_state)
     = sentQuery answered_state
  /\ requests_started example_preferences true fresh_hook example_props
       answered_state
       (set_queryError (Some "Query cannot be empty") answered_state) = [].
Proof.
  apply (submit_empty_query_rejected example_preferences true fresh_hook
           (fun q => q) example_props 0 answered_state
           (example_values EmptyString)).
  reflexivity.
Defined.

(** *** Cancel and the request in flight *)

Section CancelFacts.

Context {num native : Type}.
Variable H : Host num native.
Variable JSON_parse : string -> completion (JSValue num native).

(** A stream is opened inside [if (execute)]: what its handler holds as
    [execute] is true, and stays so, whatever the later renders are given. *)
Lemma open_stream_captures preferences execute s :
  open_stream preferences execute = Some s -> captured_execute s = true.
Proof.
  unfold open_stream. destruct execute; [|discriminate].
  destruct (String.eqb _ _); [|discriminate].
  now intros [= <-].
Qed.

Lemma deliver_captures s chunk :
  captured_execute (deliver H JSON_parse s chunk) = captured_execute s.
Proof. reflexivity. Qed.

(** So the test [!execute && text.length > 0] of the handler never holds:
    every chunk is taken in, line by line. *)
Lemma deliver_takes_chunk s chunk :
  captured_execute s = true ->
  received (deliver H JSON_parse s chunk)
  = fold_left (on_line H JSON_parse (stream_keyPath s))
      (JS.split JS.LF chunk) (received s).
Proof.
  intros Hcaptured. unfold deliver, on_data. simpl. now rewrite Hcaptured.
Qed.

(** C7, at the failing input.  A streamed request is in flight, opened while
    the model was switched on, and the session has a previous response.
    Cancel is one call, [setEnableModel(false)].  The render that follows
    gives the hook [execute = false]: the hook sends nothing, and aborts
    nothing; its [isLoading] is what it was, true, so the form is still busy.
    The handler of the stream holds the [execute] of its own render, true: it
    takes the next chunk in as if nothing had been cancelled, and the text it
    has then, once it is the hook's data, is put on display. *)
Theorem cancel_leaves_stream_running chunk c late callerLoading :
  cancel answered_state = (set_enableModel false answered_state, [])
  /\ model streamed_preferences true fresh_hook example_props
       (fst (cancel answered_state))
     = Endpoint {| view_data := data fresh_hook;
                   view_isLoading := isLoading fresh_hook;
                   view_error := error fresh_hook;
                   view_dataTag := Some (dataTag fresh_hook) |} None
  /\ busy callerLoading (isLoading fresh_hook) = true
  /\ match open_stream streamed_preferences (enableModel answered_state) with
     | Some s =>
         captured_execute (deliver H JSON_parse s chunk) = true
         /\ received (deliver H JSON_parse s chunk)
            = fold_left
                (on_line H JSON_parse (outputKeyPath streamed_preferences))
                (JS.split JS.LF chunk) EmptyString
     | None => False
     end
  /\ currentResponse
       (on_model_data (String c late) (fst (cancel answered_state)))
     = String c late.
Proof.
  split; [reflexivity |]. split; [reflexivity |].
  split; [unfold busy; apply orb_true_r |].
  split; [|reflexivity].
  split; [reflexivity |].
  now apply deliver_takes_chunk.
Qed.

End CancelFacts.

(** C5, at the failing input.  On an endpoint reached over HTTP, with a
    previous response on display, Regenerate calls the [revalidate] of the
    model hook, which does nothing there: no prompt is run again and no
    request is issued.  On Raycast AI the same action runs the sent query
    again. *)
Theorem regenerate_http_endpoint_idle :
  regenerate example_preferences true fresh_hook example_props answered_state
  = (answered_state, [])
  /\ regenerate raycast_preferences true fresh_hook example_props answered_state
     = (answered_state, [ModelRerun "And shorter?"]).
Proof. split; reflexivity. Qed.

(** *** The trimming of the history *)

Lemma trim_history_within fuel q convo :
  over_budget q convo = false -> trim_history fuel q convo = Some convo.
Proof. intros Hover. destruct fuel; simpl; now rewrite Hover. Qed.

(** A query that starts with a letter makes the test of the loop false
    whatever the history holds: query and length together are no number. *)
Lemma over_budget_word c q convo :
  JS.starts_word c = true -> over_budget (String c q) convo = false.
Proof.
  intros Hword. unfold over_budget. simpl append.
  now rewrite string_to_number_word.
Qed.

Lemma trim_history_word c q fuel convo :
  JS.starts_word c = true ->
  trim_history fuel (String c q) convo = Some convo.
Proof. intros Hword. apply trim_history_within. now apply over_budget_word. Qed.

(** A query of digits is read together with the length as one number: with
    the query [9999] the test holds on every history, the empty one included,
    and the loop does not end. *)
Lemma trim_history_over fuel q convo :
  over_budget q convo = true ->
  trim_history fuel q convo
  = match fuel with
    | O => None
    | S fuel' => trim_history fuel' q (tl convo)
    end.
Proof. intros Hover. destruct fuel; simpl; now rewrite Hover. Qed.

Lemma trim_history_digits_loop fuel :
  trim_history fuel "9999" (pushed example_state (example_values "9999")) = None.
Proof.
  assert (Hempty : forall n, trim_history n "9999" [] = None).
  { assert (H0 : over_budget "9999" [] = true) by (vm_compute; reflexivity).
    induction n as [|n IH]; rewrite (trim_history_over _ _ _ H0);
      [reflexivity | exact IH]. }
  assert (H3 : over_budget "9999" (pushed example_state (example_values "9999")) = true)
    by (vm_compute; reflexivity).
  assert (H2 : over_budget "9999" (tl (pushed example_state (example_values "9999"))) = true)
    by (vm_compute; reflexivity).
  assert (H1 : over_budget "9999" (tl (tl (pushed example_state (example_values "9999")))) = true)
    by (vm_compute; reflexivity).
  rewrite (trim_history_over _ _ _ H3). destruct fuel as [|fuel]; [reflexivity |].
  rewrite (trim_history_over _ _ _ H2). destruct fuel as [|fuel]; [reflexivity |].
  rewrite (trim_history_over _ _ _ H1). destruct fuel as [|fuel]; [reflexivity |].
  apply Hempty.
Qed.

(** C1, at the failing input.  The response on display has 4000 characters
    and the query is [hi]: the submit leaves the whole history in place, base
    prompt, response and query, and query and joined history together have
    4024 characters, more than 3900. *)
Theorem submit_keeps_long_history preferences canAccessAI hook runReplacements fuel :
  over_budget "hi" (pushed example_state (example_values "hi")) = false
  /\ option_map (fun r => conversation (fst r))
       (onSubmit preferences canAccessAI hook runReplacements example_props
          fuel example_state (example_values "hi"))
     = Some ["Summarize the text"; JS.repeat_char "a" 4000; "hi"]
  /\ String.length "hi"
     + String.length
         (JS.join NL ["Summarize the text"; JS.repeat_char "a" 4000; "hi"])
     = 4024.
Proof.
  split; [|split].
  - now apply over_budget_word.
  - unfold onSubmit.
    change (negb (0 <? String.length (queryField (example_values "hi")))%nat)
      with false.
    cbv iota.
    rewrite (trim_history_word "h" "i" fuel _ eq_refl). reflexivity.
  - vm_compute. reflexivity.
Qed.

(** * Further properties *)

(** ** Paths and keys *)

Lemma split_not_nil sep s : JS.split sep s <> [].
Proof.
  destruct s as [|c s]; simpl; [discriminate |].
  destruct (JS.split sep s); [discriminate |].
  destruct (Ascii.eqb c sep); discriminate.
Qed.

Lemma split_brackets_from_not_nil fuel s : JS.split_brackets_from fuel s <> [].
Proof.
  destruct fuel as [|fuel]; simpl; [discriminate |].
  destruct (JS.match_bracket s) as [[cap rest]|]; [discriminate |].
  destruct s as [|c s]; [discriminate |].
  destruct (JS.split_brackets_from fuel s); discriminate.
Qed.

Lemma split_free sep s :
  Forall (fun piece => JS.free_of sep piece = true) (JS.split sep s).
Proof.
  induction s as [|c s IH]; simpl.
  - repeat constructor.
  - pose proof (split_not_nil sep s) as Hnil.
    destruct (JS.split sep s) as [|piece rest].
    + contradiction.
    + inversion IH as [|? ? Hpiece Hrest]; subst.
      destruct (Ascii.eqb c sep) eqn:E.
      * constructor; [reflexivity | now constructor].
      * constructor; [simpl; now rewrite E | exact Hrest].
Qed.

Lemma split_absent sep s :
  JS.free_of sep s = true -> JS.split sep s = [s].
Proof.
  induction s as [|c s IH]; simpl; [reflexivity |].
  intros Hfree. apply andb_true_iff in Hfree. destruct Hfree as [Hc Hfree].
  apply negb_true_iff in Hc. now rewrite (IH Hfree), Hc.
Qed.

Lemma bracket_body_free c t cap rest :
  JS.free_of c t = true ->
  JS.bracket_body t = Some (cap, rest) ->
  JS.free_of c cap = true /\ JS.free_of c rest = true.
Proof.
  revert cap rest. induction t as [|d t IH]; intros cap rest; simpl;
    [discriminate |].
  intros Hfree. apply andb_true_iff in Hfree. destruct Hfree as [Hd Hfree].
  destruct (Ascii.eqb d "}"); [discriminate |].
  destruct (JS.bracket_body t) as [[cap' rest']|].
  - intros [= <- <-]. destruct (IH cap' rest' Hfree eq_refl) as [Hcap Hrest].
    simpl. now rewrite Hd, Hcap.
  - destruct t as [|e t]; [discriminate |].
    destruct (Ascii.eqb e "]"); [|discriminate].
    intros [= <- <-]. simpl in Hfree. apply andb_true_iff in Hfree.
    simpl. now rewrite Hd.
Qed.

Lemma split_brackets_from_free c fuel s :
  JS.free_of c s = true ->
  Forall (fun piece => JS.free_of c piece = true) (JS.split_brackets_from fuel s).
Proof.
  revert s. induction fuel as [|fuel IH]; intros s Hfree; simpl.
  - now repeat constructor.
  - destruct (JS.match_bracket s) as [[cap rest]|] eqn:Hmatch.
    + destruct s as [|d t]; [discriminate |]. simpl in Hmatch.
      destruct (Ascii.eqb d "["); [|discriminate].
      simpl in Hfree. apply andb_true_iff in Hfree. destruct Hfree as [_ Hfree].
      destruct (bracket_body_free c t cap rest Hfree Hmatch) as [Hcap Hrest].
      constructor; [reflexivity |]. constructor; [exact Hcap |]. now apply IH.
    + destruct s as [|d t]; [now repeat constructor |].
      simpl in Hfree. apply andb_true_iff in Hfree. destruct Hfree as [Hd Hfree].
      specialize (IH t Hfree).
      pose proof (split_brackets_from_not_nil fuel t) as Hnil.
      destruct (JS.split_brackets_from fuel t) as [|piece more].
      * contradiction.
      * inversion IH; subst.
        constructor; [simpl; now rewrite Hd | assumption].
Qed.

Lemma split_brackets_from_absent fuel s :
  JS.free_of "[" s = true ->
  String.length s < fuel ->
  JS.split_brackets_from fuel s = [s].
Proof.
  revert s. induction fuel as [|fuel IH]; intros s Hfree Hfuel; [lia |].
  destruct s as [|c s]; [reflexivity |].
  simpl in Hfree. apply andb_true_iff in Hfree. destruct Hfree as [Hc Hfree].
  apply negb_true_iff in Hc. simpl. rewrite Hc.
  rewrite (IH s Hfree) by (simpl in Hfuel; lia). reflexivity.
Qed.

Lemma path_of_plain key :
  JS.trim key = key ->
  key <> EmptyString ->
  JS.free_of "." key = true ->
  JS.free_of "[" key = true ->
  @path_of key = [key].
Proof.
  intros Htrim Hne Hdot Hbracket. unfold path_of.
  rewrite Htrim, (split_absent "." key Hdot). simpl.
  unfold JS.split_brackets.
  rewrite (split_brackets_from_absent _ key Hbracket) by lia.
  simpl. destruct key; [contradiction | reflexivity].
Qed.

Section PathFacts.

Context {num native : Type}.
Variable H : Host num native.

(** X1.  A key path that is empty or blank names the response itself: [get]
    returns the value it was given, whatever it is, [null] included, and never
    the default. *)
Theorem get_blank_path (obj : JSValue num native) pathString def :
  JS.trim pathString = EmptyString ->
  get H obj pathString def = Normal obj.
Proof.
  intros Hblank. unfold get, path_of. rewrite Hblank. simpl.
  destruct (typeof_object H obj); reflexivity.
Qed.

(** X2.  When every key of the path is found in turn, with a truthy value,
    [get] on an object or array returns the value the last key names. *)
Theorem get_follows_path (obj v : JSValue num native) pathString def :
  typeof_object H obj = true ->
  reaches H obj (path_of pathString) v ->
  get H obj pathString def = Normal v.
Proof.
  intros Hty Hreach. unfold get. rewrite Hty.
  rewrite <- (app_nil_r (path_of pathString)).
  now rewrite (descend_reaches H obj v (path_of pathString) [] def Hreach).
Qed.

(** X4.  A key without dots, brackets and outer white space reads the field
    of that name: when the field holds a truthy value, [get] returns it. *)
Theorem get_own_key fields key (v : JSValue num native) def :
  JS.trim key = key ->
  key <> EmptyString ->
  JS.free_of "." key = true ->
  JS.free_of "[" key = true ->
  own_field fields key = Some v ->
  truthy H v = true ->
  get H (JObj fields) key def = Normal v.
Proof.
  intros Htrim Hne Hdot Hbracket Hown Htrue. unfold get.
  rewrite (path_of_plain key Htrim Hne Hdot Hbracket). simpl.
  now rewrite Hown, Htrue.
Qed.

End PathFacts.

(** X3.  No key of a path is empty and none holds a dot: a field whose name
    holds a dot cannot be addressed. *)
Theorem path_of_keys pathString :
  Forall (fun key => key <> EmptyString /\ JS.free_of "." key = true)
    (path_of pathString).
Proof.
  unfold path_of. apply Forall_flat_map.
  pose proof (split_free "." (JS.trim pathString)) as Hpieces.
  induction Hpieces as [|item items Hitem _ IH]; constructor; [|exact IH].
  apply Forall_forall. intros key Hin. apply filter_In in Hin.
  destruct Hin as [Hin Hlen]. split.
  - intros ->. discriminate Hlen.
  - pose proof (split_brackets_from_free "." (S (String.length item)) item Hitem)
      as Hfree.
    rewrite Forall_forall in Hfree. now apply Hfree.
Qed.

Lemma get_blank_path_witness :
  get plain_host JNull "  " (Some "D") = Normal JNull.
Proof.
  apply (get_blank_path plain_host JNull "  " (Some "D")). reflexivity.
Defined.

Lemma get_follows_path_witness :
  get plain_host
    (JObj [("choices", JArr [JObj [("text", JStr "ok")]])])
    "choices[0].text" None
  = Normal (JStr "ok").
Proof.
  apply (get_follows_path plain_host).
  - reflexivity.
  - apply reaches_step with (w := JArr [JObj [("text", JStr "ok")]]);
      [reflexivity | reflexivity |].
    apply reaches_step with (w := JObj [("text", JStr "ok")]);
      [reflexivity | reflexivity |].
    apply reaches_step with (w := JStr "ok"); [reflexivity | reflexivity |].
    apply reaches_here.
Defined.

Lemma get_own_key_witness :
  get plain_host (JObj [("id", JNum 7%Z); ("text", JStr "ok")]) "text" (Some "D")
  = Normal (JStr "ok").
Proof.
  apply (get_own_key plain_host); reflexivity || discriminate.
Defined.

(** ** The body of a request *)

Lemma space_is_space c : Ascii.eqb c " " = true -> JS.is_space c = true.
Proof. intros E. apply Ascii.eqb_eq in E. now subst. Qed.

Lemma collapse_from_shape in_run x :
  Shape.single_spaced (JS.collapse_from in_run x) = true
  /\ (in_run = true ->
      Shape.starts_with_space (JS.collapse_from in_run x) = false).
Proof.
  revert in_run. induction x as [|c x IH]; intros in_run; simpl.
  - now split.
  - destruct (JS.is_space c) eqn:Hspace.
    + destruct in_run.
      * apply IH.
      * destruct (IH true) as [Hshape Hstart]. split; [|discriminate].
        simpl. now rewrite Hshape, (Hstart eq_refl).
    + destruct (IH false) as [Hshape _]. simpl. rewrite Hspace, Hshape.
      split; [reflexivity |]. intros _.
      destruct (Ascii.eqb c " ") eqn:E; [|reflexivity].
      apply space_is_space in E. congruence.
Qed.

Lemma escape_quotes_start s :
  Shape.starts_with_space (JS.escape_quotes s) = Shape.starts_with_space s.
Proof.
  destruct s as [|c s]; simpl; [reflexivity |].
  destruct (Ascii.eqb_spec c JS.DQUOTE) as [-> | _]; reflexivity.
Qed.

Lemma escape_quotes_spaced s :
  Shape.single_spaced s = true ->
  Shape.single_spaced (JS.escape_quotes s) = true.
Proof.
  induction s as [|c s IH]; simpl; [reflexivity |].
  intros Hshape. apply andb_true_iff in Hshape. destruct Hshape as [Hc Hs].
  destruct (Ascii.eqb_spec c JS.DQUOTE) as [-> | _].
  - simpl. now rewrite (IH Hs).
  - simpl. now rewrite escape_quotes_start, Hc, (IH Hs).
Qed.

Lemma escape_quotes_escaped after_backslash s :
  Shape.quotes_escaped_from after_backslash (JS.escape_quotes s) = true.
Proof.
  revert after_backslash. induction s as [|c s IH]; intros b; simpl;
    [reflexivity |].
  destruct (Ascii.eqb c JS.DQUOTE) eqn:E.
  - simpl. now rewrite IH.
  - simpl. now rewrite E, IH.
Qed.

(** X5.  A flattened text is on one line: its only white space is the space
    character, and no space follows another, whatever line breaks, tabs and
    runs of blanks the prompt holds. *)
Theorem flatten_single_spaced x :
  Shape.single_spaced (flatten x) = true.
Proof.
  unfold flatten, JS.collapse_whitespace.
  apply escape_quotes_spaced. apply collapse_from_shape.
Qed.

(** X6.  In a flattened text every double quote stands right after a
    backslash. *)
Theorem flatten_quotes_escaped x :
  Shape.quotes_escaped (flatten x) = true.
Proof. apply escape_quotes_escaped. Qed.

Lemma occurs_in_middle a t b : JS.occurs_in t (a ++ t ++ b).
Proof. now exists a, b. Qed.

Lemma append_assoc a b c : ((a ++ b) ++ c)%string = (a ++ b ++ c)%string.
Proof. induction a as [|x a IH]; simpl; [reflexivity | now rewrite IH]. Qed.

Lemma append_nil_r a : (a ++ EmptyString)%string = a.
Proof. induction a as [|x a IH]; simpl; [reflexivity | now rewrite IH]. Qed.

(** X7.  For a body template with the token [{prompt}], a prompt that gives
    no dollar sign to the replacement, and no [{basePrompt}] or [{input}] in
    the outcome, both kinds of request send the same body: the template with
    the first [{prompt}] replaced by prefix, flattened prompt and suffix. *)
Theorem request_body_prompt_token preferences basePrompt prompt input before after :
  JS.find_first (inputSchema preferences) "{prompt}" = Some (before, after) ->
  JS.free_of "$"
    (promptPrefix preferences ++ flatten prompt ++ promptSuffix preferences) = true ->
  JS.find_first
    (before ++ (promptPrefix preferences ++ flatten prompt
                ++ promptSuffix preferences) ++ after)
    "{basePrompt}" = None ->
  JS.find_first
    (before ++ (promptPrefix preferences ++ flatten prompt
                ++ promptSuffix preferences) ++ after)
    "{input}" = None ->
  inputSchema preferences = (before ++ "{prompt}" ++ after)%string
  /\ sync_body preferences basePrompt prompt input
     = (before ++ (promptPrefix preferences ++ flatten prompt
                   ++ promptSuffix preferences) ++ after)%string
  /\ async_body preferences basePrompt prompt input
     = sync_body preferences basePrompt prompt input.
Proof.
  intros Hprompt Hfree Hbase Hinput.
  split; [now apply find_first_spec |].
  unfold sync_body, async_body.
  rewrite (replace_literal _ _ _ before after Hprompt Hfree).
  rewrite (replace_absent _ _ _ Hbase).
  now rewrite !(replace_absent _ _ _ Hinput).
Qed.

Lemma request_body_prompt_token_witness :
  inputSchema example_preferences
  = ("{" ++ JS.quoted "q" ++ ":" ++ JS.chr JS.DQUOTE ++ "{prompt}"
         ++ JS.chr JS.DQUOTE ++ "}")%string
  /\ sync_body example_preferences "Summarize" "two  words" EmptyString
     = ("{" ++ JS.quoted "q" ++ ":" ++ JS.chr JS.DQUOTE
            ++ (EmptyString ++ flatten "two  words" ++ EmptyString)
            ++ JS.chr JS.DQUOTE ++ "}")%string
  /\ async_body example_preferences "Summarize" "two  words" EmptyString
     = sync_body example_preferences "Summarize" "two  words" EmptyString.
Proof.
  apply (request_body_prompt_token example_preferences "Summarize"
           "two  words" EmptyString
           ("{" ++ JS.quoted "q" ++ ":" ++ JS.chr JS.DQUOTE)
           (JS.chr JS.DQUOTE ++ "}")); reflexivity.
Defined.

Section ResponseFacts.

Context {num native : Type}.
Variable H : Host num native.

(** X8.  At the end of a stream, loading stops when the body of the request
    was built from a template with the token [{prompt}] as above. *)
Theorem on_end_stops_loading preferences basePrompt prompt input before after :
  JS.find_first (inputSchema preferences) "{prompt}" = Some (before, after) ->
  JS.free_of "$"
    (promptPrefix preferences ++ flatten prompt ++ promptSuffix preferences) = true ->
  JS.find_first
    (before ++ (promptPrefix preferences ++ flatten prompt
                ++ promptSuffix preferences) ++ after)
    "{basePrompt}" = None ->
  JS.find_first
    (before ++ (promptPrefix preferences ++ flatten prompt
                ++ promptSuffix preferences) ++ after)
    "{input}" = None ->
  on_end (async_body preferences basePrompt prompt input) prompt
  = [@SetIsLoading num native false].
Proof.
  intros Hprompt Hfree Hbase Hinput. unfold on_end, async_body.
  rewrite (replace_literal _ _ _ before after Hprompt Hfree).
  rewrite (replace_absent _ _ _ Hbase), (replace_absent _ _ _ Hinput).
  assert (Hin : JS.includes
                  (before ++ (promptPrefix preferences ++ flatten prompt
                              ++ promptSuffix preferences) ++ after)
                  (flatten prompt) = true).
  { apply includes_spec.
    exists (before ++ promptPrefix preferences)%string,
           (promptSuffix preferences ++ after)%string.
    now rewrite !append_assoc. }
  now rewrite Hin.
Qed.

(** X9.  After a synchronous request, loading stops exactly when the
    response is ok, its body parses and [get] does not raise; in every other
    case one error is set and [isLoading], set to true when the request was
    sent, is never set back. *)
Theorem sync_response_loading keyPath (response : HttpResponse) :
  (In (SetIsLoading false) (on_sync_response H keyPath response)
   <-> ok response = true
       /\ exists jsonData output,
            json response = Normal jsonData
            /\ get H jsonData keyPath None = Normal output)
  /\ (~ In (SetIsLoading false) (on_sync_response H keyPath response) ->
      exists text, on_sync_response H keyPath response = [SetError text]).
Proof.
  unfold on_sync_response.
  destruct (ok response); [|split].
  - destruct (json response) as [jsonData|]; [|split].
    + destruct (get H jsonData keyPath None) as [output|] eqn:Hget; split.
      * split; [|intros _; simpl; auto].
        intros _. split; [reflexivity |]. now exists jsonData, output.
      * intros Hnot. elim Hnot. simpl. auto.
      * split.
        -- intros [E | []]. discriminate E.
        -- intros [_ [j [o [Hj Ho]]]]. injection Hj as <-. congruence.
      * intros _. now exists CouldNotParse.
    + split.
      * intros [E | []]. discriminate E.
      * intros [_ [j [o [Hj _]]]]. discriminate Hj.
    + intros _. now exists CouldNotParse.
  - split.
    + intros [E | []]. discriminate E.
    + intros [E _]. discriminate E.
  - intros _. now exists (StatusText (statusText response)).
Qed.

(** X10.  An ok response that lacks the key, or holds a falsy value under
    it, is no error: the data is set to [undefined] and loading stops. *)
Theorem sync_response_missing_key keyPath (response : HttpResponse) jsonData :
  ok response = true ->
  json response = Normal jsonData ->
  typeof_object H jsonData = true ->
  Exists (fun v => truthy H v = false)
    (path_values H jsonData (path_of keyPath)) ->
  on_sync_response H keyPath response
  = [SetData JUndefined; SetIsLoading false].
Proof.
  intros Hok Hjson Hty Hmissing. unfold on_sync_response, get.
  rewrite Hok, Hjson, Hty.
  now rewrite (descend_falsy_value H jsonData (path_of keyPath) None Hmissing).
Qed.

End ResponseFacts.

Lemma on_end_stops_loading_witness :
  on_end (async_body example_preferences "Summarize" "two  words" EmptyString)
    "two  words"
  = [@SetIsLoading Z Empty_set false].
Proof.
  apply (on_end_stops_loading example_preferences "Summarize"
           "two  words" EmptyString
           ("{" ++ JS.quoted "q" ++ ":" ++ JS.chr JS.DQUOTE)
           (JS.chr JS.DQUOTE ++ "}")); reflexivity.
Defined.

Lemma sync_response_missing_key_witness :
  on_sync_response plain_host "choices[0].text"
    {| ok := true; statusText := "OK";
       json := Normal (JObj [("choices", JArr [])]) |}
  = [SetData JUndefined; SetIsLoading false].
Proof.
  apply (sync_response_missing_key plain_host "choices[0].text" _
           (JObj [("choices", JArr [])])).
  - reflexivity.
  - reflexivity.
  - reflexivity.
  - apply Exists_cons_tl. apply Exists_cons_hd. reflexivity.
Defined.

(** ** The branches of the hook *)

Lemma both_empty_false basePrompt prompt :
  basePrompt <> EmptyString \/ prompt <> EmptyString ->
  ((String.length basePrompt =? 0)%nat && (String.length prompt =? 0)%nat) = false.
Proof.
  intros Hprompt. apply andb_false_iff.
  destruct Hprompt as [Hne | Hne]; [left | right];
    (destruct (String.length _ =? 0)%nat eqn:E; [|reflexivity]);
    apply length_zero_iff in E; contradiction.
Qed.

Lemma both_empty_true basePrompt prompt :
  ((String.length basePrompt =? 0)%nat && (String.length prompt =? 0)%nat) = true ->
  basePrompt = EmptyString /\ prompt = EmptyString.
Proof.
  intros Hboth. apply andb_true_iff in Hboth. destruct Hboth as [Hb Hp].
  split; now apply length_zero_iff.
Qed.

(** X11.  The hook issues a request only when it is told to execute, the
    endpoint is no name of Raycast AI and holds a colon, the base prompt and
    the prompt are not both empty and the timing is [sync] or [async]; the
    request then goes to the endpoint itself, with the headers of the
    preferences and the body of that timing. *)
Theorem useModel_request preferences canAccessAI state basePrompt prompt input
  execute request :
  In request
    (network_calls
       (useModel preferences canAccessAI state basePrompt prompt input execute)) ->
  execute = true
  /\ (basePrompt <> EmptyString \/ prompt <> EmptyString)
  /\ JS.array_includes validRaycastAIReps
       (JS.toLowerCase (modelEndpoint preferences)) = false
  /\ JS.includes (modelEndpoint preferences) ":" = true
  /\ url request = modelEndpoint preferences
  /\ request_headers request = headers preferences
  /\ ((outputTiming preferences = "sync"
       /\ body request = sync_body preferences basePrompt prompt input)
      \/ (outputTiming preferences = "async"
          /\ body request = async_body preferences basePrompt prompt input)).
Proof.
  unfold useModel.
  destruct ((String.length basePrompt =? 0)%nat && (String.length prompt =? 0)%nat)
    eqn:Hempty; [intros [] |].
  destruct (JS.array_includes _ _) eqn:Halias.
  { destruct (negb canAccessAI); intros []. }
  destruct (JS.includes _ _) eqn:Hcolon; [|intros []].
  destruct execute; [|intros []].
  assert (Hprompts : basePrompt <> EmptyString \/ prompt <> EmptyString).
  { apply andb_false_iff in Hempty. destruct Hempty as [E | E]; [left | right];
      intros ->; discriminate E. }
  destruct (String.eqb_spec (outputTiming preferences) "sync") as [Hsync | _].
  - intros [<- | []]. simpl. repeat split; auto.
  - destruct (String.eqb_spec (outputTiming preferences) "async") as [Hasync | _].
    + intros [<- | []]. simpl. repeat split; auto.
    + intros [].
Qed.

Lemma useModel_request_witness :
  true = true
  /\ ("Summarize" <> EmptyString \/ "Hello" <> EmptyString)
  /\ JS.array_includes validRaycastAIReps
       (JS.toLowerCase (modelEndpoint example_preferences)) = false
  /\ JS.includes (modelEndpoint example_preferences) ":" = true
  /\ url {| url := modelEndpoint example_preferences;
            request_headers := headers example_preferences;
            body := sync_body example_preferences "Summarize" "Hello" EmptyString |}
     = modelEndpoint example_preferences
  /\ request_headers
       {| url := modelEndpoint example_preferences;
          request_headers := headers example_preferences;
          body := sync_body example_preferences "Summarize" "Hello" EmptyString |}
     = headers example_preferences
  /\ ((outputTiming example_preferences = "sync"
       /\ body {| url := modelEndpoint example_preferences;
                  request_headers := headers example_preferences;
                  body := sync_body example_preferences "Summarize" "Hello"
                            EmptyString |}
          = sync_body example_preferences "Summarize" "Hello" EmptyString)
      \/ (outputTiming example_preferences = "async"
          /\ body {| url := modelEndpoint example_preferences;
                     request_headers := headers example_preferences;
                     body := sync_body example_preferences "Summarize" "Hello"
                               EmptyString |}
             = async_body example_preferences "Summarize" "Hello" EmptyString)).
Proof.
  apply (useModel_request example_preferences true fresh_hook
           "Summarize" "Hello" EmptyString true).
  left. reflexivity.
Defined.

(** X25.  When the effect of the hook runs with [execute] true, prompts that
    are not both empty and an endpoint that is no name of Raycast AI and holds
    a colon, it issues one request, to the endpoint, with the headers of the
    preferences and the body built from the prompts of that very render: the
    body of the timing [sync] or of the timing [async].  With any other timing
    it issues nothing at all. *)
Theorem useModel_issues_request preferences canAccessAI state basePrompt prompt
  input :
  basePrompt <> EmptyString \/ prompt <> EmptyString ->
  JS.array_includes validRaycastAIReps
    (JS.toLowerCase (modelEndpoint preferences)) = false ->
  JS.includes (modelEndpoint preferences) ":" = true ->
  (outputTiming preferences = "sync" ->
   network_calls
     (useModel preferences canAccessAI state basePrompt prompt input true)
   = [{| url := modelEndpoint preferences;
         request_headers := headers preferences;
         body := sync_body preferences basePrompt prompt input |}])
  /\ (outputTiming preferences = "async" ->
      network_calls
        (useModel preferences canAccessAI state basePrompt prompt input true)
      = [{| url := modelEndpoint preferences;
            request_headers := headers preferences;
            body := async_body preferences basePrompt prompt input |}])
  /\ (outputTiming preferences <> "sync" ->
      outputTiming preferences <> "async" ->
      network_calls
        (useModel preferences canAccessAI state basePrompt prompt input true)
      = []).
Proof.
  intros Hprompt Halias Hcolon. unfold useModel.
  rewrite (both_empty_false _ _ Hprompt), Halias, Hcolon.
  repeat split.
  - intros ->. reflexivity.
  - intros ->. reflexivity.
  - intros Hsync Hasync.
    destruct (String.eqb_spec (outputTiming preferences) "sync");
      [contradiction |].
    destruct (String.eqb_spec (outputTiming preferences) "async");
      [contradiction |].
    reflexivity.
Qed.

Lemma useModel_issues_request_witness :
  network_calls
    (useModel streamed_preferences true fresh_hook "Summarize" "Hello"
       EmptyString true)
  = [{| url := modelEndpoint streamed_preferences;
        request_headers := headers streamed_preferences;
        body := async_body streamed_preferences "Summarize" "Hello" EmptyString |}].
Proof.
  refine (proj1 (proj2 (useModel_issues_request streamed_preferences true
                          fresh_hook "Summarize" "Hello" EmptyString _ _ _)) _).
  - left. discriminate.
  - reflexivity.
  - reflexivity.
  - reflexivity.
Defined.

(** X12.  With the base prompt and the prompt both empty the hook returns
    the error of the empty prompt and starts nothing, whatever the endpoint,
    the access to the AI, the timing and the state of the hook. *)
Theorem useModel_empty_prompts preferences canAccessAI state input execute :
  useModel preferences canAccessAI state EmptyString EmptyString input execute
  = Returned {| view_data := EmptyString; view_isLoading := false;
                view_error := Some PromptCannotBeEmpty;
                view_dataTag := None |}
  /\ network_calls
       (useModel preferences canAccessAI state EmptyString EmptyString input
          execute) = []
  /\ revalidate
       (useModel preferences canAccessAI state EmptyString EmptyString input
          execute) = [].
Proof. repeat split. Qed.

(** X13.  An endpoint that is no name of Raycast AI and holds no colon is
    invalid: the hook returns that error, with empty data, and starts
    nothing. *)
Theorem useModel_invalid_endpoint preferences canAccessAI state basePrompt prompt
  input execute :
  basePrompt <> EmptyString \/ prompt <> EmptyString ->
  JS.array_includes validRaycastAIReps
    (JS.toLowerCase (modelEndpoint preferences)) = false ->
  JS.includes (modelEndpoint preferences) ":" = false ->
  useModel preferences canAccessAI state basePrompt prompt input execute
  = Returned {| view_data := EmptyString; view_isLoading := false;
                view_error := Some InvalidEndpoint;
                view_dataTag := Some EmptyString |}.
Proof.
  intros Hprompt Halias Hcolon. unfold useModel.
  now rewrite (both_empty_false _ _ Hprompt), Halias, Hcolon.
Qed.

Lemma useModel_invalid_endpoint_witness :
  useModel
    {| modelEndpoint := " raycast ai"; authType := EmptyString;
       apiKey := EmptyString; inputSchema := example_schema;
       outputKeyPath := "text"; outputTiming := "sync";
       promptPrefix := EmptyString; promptSuffix := EmptyString |}
    true fresh_hook "Summarize" EmptyString EmptyString true
  = Returned {| view_data := EmptyString; view_isLoading := false;
                view_error := Some InvalidEndpoint;
                view_dataTag := Some EmptyString |}.
Proof.
  apply useModel_invalid_endpoint.
  - left. discriminate.
  - reflexivity.
  - reflexivity.
Defined.

(** X14.  With a name of Raycast AI as the endpoint, access to the AI, and a
    base prompt or a prompt that is not empty, the hook hands prefix, prompt
    and suffix to the platform's hook, tags the result with the base prompt,
    issues no request of its own, and its [revalidate] runs that same text
    again. *)
Theorem useModel_native preferences state basePrompt prompt input execute :
  basePrompt <> EmptyString \/ prompt <> EmptyString ->
  JS.array_includes validRaycastAIReps
    (JS.toLowerCase (modelEndpoint preferences)) = true ->
  useModel preferences true state basePrompt prompt input execute
  = NativeAI (promptPrefix preferences ++ prompt ++ promptSuffix preferences)
      execute basePrompt
  /\ network_calls
       (useModel preferences true state basePrompt prompt input execute) = []
  /\ revalidate
       (useModel preferences true state basePrompt prompt input execute)
     = [RerunAI (promptPrefix preferences ++ prompt ++ promptSuffix preferences)].
Proof.
  intros Hprompt Halias. unfold useModel.
  rewrite (both_empty_false _ _ Hprompt), Halias. simpl. repeat split.
Qed.

Lemma useModel_native_witness :
  useModel raycast_preferences true fresh_hook "Summarize" "Hello" EmptyString true
  = NativeAI (promptPrefix raycast_preferences ++ "Hello"
              ++ promptSuffix raycast_preferences) true "Summarize"
  /\ network_calls
       (useModel raycast_preferences true fresh_hook "Summarize" "Hello"
          EmptyString true) = []
  /\ revalidate
       (useModel raycast_preferences true fresh_hook "Summarize" "Hello"
          EmptyString true)
     = [RerunAI (promptPrefix raycast_preferences ++ "Hello"
                 ++ promptSuffix raycast_preferences)].
Proof.
  apply (useModel_native raycast_preferences fresh_hook "Summarize" "Hello"
           EmptyString true).
  - left. discriminate.
  - reflexivity.
Defined.

(** ** Streamed chunks *)

Lemma length_append a b :
  String.length (a ++ b) = String.length a + String.length b.
Proof. induction a as [|c a IH]; simpl; [reflexivity | now rewrite IH]. Qed.

Lemma occurs_in_length t s :
  JS.occurs_in t s -> String.length t <= String.length s.
Proof.
  intros [a [b ->]]. rewrite !length_append. lia.
Qed.

Lemma includes_empty text :
  (if JS.includes EmptyString text then EmptyString
   else (text ++ EmptyString)%string) = text.
Proof.
  destruct text as [|c text]; [reflexivity |].
  simpl. now rewrite append_nil_r.
Qed.

Lemma substring_all s : String.substring 0 (String.length s) s = s.
Proof. induction s as [|c s IH]; simpl; [reflexivity | now rewrite IH]. Qed.

Lemma substring_from_append p s :
  substring_from (String.length p) (p ++ s) = s.
Proof.
  unfold substring_from. rewrite length_append.
  replace (String.length p + String.length s - String.length p)
    with (String.length s) by lia.
  induction p as [|c p IH]; simpl; [apply substring_all | exact IH].
Qed.

Lemma occurs_in_trans a b c :
  JS.occurs_in a b -> JS.occurs_in b c -> JS.occurs_in a c.
Proof.
  intros [x [y ->]] [u [v ->]].
  exists (u ++ x)%string, (y ++ v)%string. now rewrite !append_assoc.
Qed.

Lemma split_pieces sep s :
  match JS.split sep s with
  | [] => False
  | first :: rest =>
      (exists tail, s = (first ++ tail)%string)
      /\ forall piece, In piece rest -> JS.occurs_in piece s
  end.
Proof.
  induction s as [|c s IH]; simpl.
  - split; [now exists EmptyString | intros piece []].
  - destruct (JS.split sep s) as [|first rest]; [contradiction |].
    destruct IH as [[tail Htail] Hrest].
    destruct (Ascii.eqb c sep).
    + split; [now exists (String c s) |].
      intros piece [<- | Hin].
      * exists (JS.chr c), tail. simpl. now rewrite Htail.
      * destruct (Hrest piece Hin) as [x [y Hs]].
        exists (String c x), y. simpl. now rewrite <- Hs.
    + split; [exists tail; simpl; now rewrite <- Htail |].
      intros piece Hin. destruct (Hrest piece Hin) as [x [y Hs]].
      exists (String c x), y. simpl. now rewrite <- Hs.
Qed.

Lemma split_pieces_occur sep s piece :
  In piece (JS.split sep s) -> JS.occurs_in piece s.
Proof.
  pose proof (split_pieces sep s) as Hsplit.
  destruct (JS.split sep s) as [|first rest]; [contradiction |].
  destruct Hsplit as [[tail Htail] Hrest].
  intros [<- | Hin]; [now exists EmptyString, tail | now apply Hrest].
Qed.

Section StreamFacts.

Context {num native : Type}.
Variable H : Host num native.
Variable JSON_parse : string -> completion (JSValue num native).

(** X15.  A value that is falsy, as the value of a key that is missing
    ([undefined]), [null], [false], 0 or the empty string, leaves the text as
    it is. *)
Theorem accumulate_falsy text (extracted : JSValue num native) :
  truthy H extracted = false ->
  accumulate H text extracted = Normal text.
Proof.
  intros Hfalsy. unfold accumulate. rewrite Hfalsy.
  cbn [to_string]. now rewrite includes_empty.
Qed.

(** X16.  The text never gets shorter: whatever value comes next, the text
    after it is at least as long as the text before it. *)
Theorem stream_text_grows (values : list (JSValue num native)) v :
  String.length (stream_text H values)
  <= String.length (stream_text H (values ++ [v])).
Proof.
  rewrite stream_text_snoc. unfold accumulate.
  destruct (to_string H _) as [s|]; [|lia].
  destruct (JS.includes s (stream_text H values)) eqn:Hin.
  - apply occurs_in_length. now apply includes_spec.
  - rewrite length_append. lia.
Qed.

Lemma last_cons_default (x : string) l d d' :
  last (x :: l) d = last (x :: l) d'.
Proof.
  revert x. induction l as [|y l IH]; intros x; [reflexivity |].
  change (last (y :: l) d = last (y :: l) d'). apply IH.
Qed.

Lemma stream_fold_snapshots text chunks :
  Shape.snapshots text chunks ->
  fold_left
    (fun t v => match accumulate H t v with Normal t' => t' | Throw => t end)
    (map JStr chunks) text
  = last chunks text.
Proof.
  revert text. induction chunks as [|chunk rest IH]; intros text; simpl.
  - reflexivity.
  - intros [Hocc Hrest]. rewrite accumulate_string.
    apply includes_spec in Hocc. rewrite Hocc.
    rewrite (IH chunk Hrest).
    destruct rest as [|next rest']; [reflexivity | apply last_cons_default].
Qed.

(** X17.  When every chunk contains the one before it, as the snapshots of
    a growing answer do, the text in the end is the last chunk. *)
Theorem stream_text_snapshots chunks :
  Shape.snapshots EmptyString chunks ->
  stream_text H (map JStr chunks) = last chunks EmptyString.
Proof. apply stream_fold_snapshots. Qed.

Lemma stream_fold_deltas text chunks :
  Shape.short_deltas (String.length text) chunks ->
  fold_left
    (fun t v => match accumulate H t v with Normal t' => t' | Throw => t end)
    (map JStr chunks) text
  = (text ++ String.concat EmptyString chunks)%string.
Proof.
  revert text. induction chunks as [|chunk rest IH]; intros text; simpl.
  - intros _. now rewrite append_nil_r.
  - intros [Hshort Hrest]. rewrite accumulate_string.
    destruct (JS.includes chunk text) eqn:Hin.
    + apply includes_spec, occurs_in_length in Hin. lia.
    + rewrite IH by now rewrite length_append.
      rewrite append_assoc. f_equal.
      destruct rest as [|next rest']; simpl; [now rewrite append_nil_r | reflexivity].
Qed.

(** X18.  After a first chunk, chunks that are each shorter than the text
    they join are appended: the text in the end is all chunks in a row. *)
Theorem stream_text_deltas first chunks :
  Shape.short_deltas (String.length first) chunks ->
  stream_text H (map JStr (first :: chunks))
  = (first ++ String.concat EmptyString chunks)%string.
Proof.
  intros Hshort. unfold stream_text. simpl fold_left at 1. simpl map.
  cbn [fold_left]. rewrite accumulate_string.
  replace (if JS.includes first EmptyString then first
           else (EmptyString ++ first)%string) with first
    by (destruct (JS.includes first EmptyString); reflexivity).
  now apply stream_fold_deltas.
Qed.

(** X19.  Of a line that starts with the marker [data:], what is parsed is
    the rest of the line, and the value under the key path joins the text;
    when that rest does not parse, or [get] raises, the text stays. *)
Theorem on_line_payload keyPath text payload :
  on_line H JSON_parse keyPath text ("data:" ++ payload)
  = match JSON_parse payload with
    | Throw => text
    | Normal jsonData =>
        match get H jsonData keyPath None with
        | Throw => text
        | Normal extracted =>
            match accumulate H text extracted with
            | Throw => text
            | Normal text' => text'
            end
        end
    end.
Proof.
  unfold on_line.
  replace (JS.includes ("data:" ++ payload) "data:") with true
    by (symmetry; apply includes_spec; now exists EmptyString, payload).
  now replace (substring_from 5 ("data:" ++ payload)) with payload
    by (symmetry; exact (substring_from_append "data:" payload)).
Qed.

(** X20.  A chunk that does not hold the marker [data:] changes nothing,
    whatever it holds: a line of data that arrives cut in two pieces, neither
    with the whole marker, is lost. *)
Theorem on_data_without_marker keyPath execute text chunk :
  JS.includes chunk "data:" = false ->
  on_data H JSON_parse keyPath execute text chunk = text.
Proof.
  intros Hchunk. unfold on_data.
  destruct (negb execute && (0 <? String.length text)%nat); [reflexivity |].
  assert (Hlines : forall line, In line (JS.split JS.LF chunk) ->
                     on_line H JSON_parse keyPath text line = text).
  { intros line Hin. unfold on_line.
    destruct (JS.includes line "data:") eqn:Hline; [|reflexivity].
    apply includes_spec in Hline. apply includes_false in Hchunk.
    elim Hchunk. apply (occurs_in_trans _ line); [exact Hline |].
    now apply (split_pieces_occur JS.LF). }
  induction (JS.split JS.LF chunk) as [|line lines IH]; simpl; [reflexivity |].
  rewrite (Hlines line (or_introl eq_refl)).
  apply IH. intros l Hl. apply Hlines. now right.
Qed.

End StreamFacts.

Lemma accumulate_falsy_witness :
  accumulate plain_host "Hel" JUndefined = Normal "Hel".
Proof. apply (accumulate_falsy plain_host "Hel" JUndefined). reflexivity. Defined.

Lemma stream_text_snapshots_witness :
  stream_text plain_host (map JStr ["He"; "Hell"; "Hello"])
  = last ["He"; "Hell"; "Hello"] EmptyString.
Proof.
  apply (stream_text_snapshots plain_host ["He"; "Hell"; "Hello"]).
  repeat split.
  - now exists EmptyString, "He".
  - now exists EmptyString, "ll".
  - now exists EmptyString, "o".
Defined.

Lemma stream_text_deltas_witness :
  stream_text plain_host (map JStr ["Hello"; ", "; "you"])
  = ("Hello" ++ String.concat EmptyString [", "; "you"])%string.
Proof.
  apply (stream_text_deltas plain_host "Hello" [", "; "you"]).
  simpl. repeat split; lia.
Defined.

Lemma on_data_without_marker_witness :
  on_data plain_host (fun _ => Throw) "text" true "Hel" "da" = "Hel".
Proof.
  apply (on_data_without_marker plain_host (fun _ => Throw) "text" true "Hel" "da").
  reflexivity.
Defined.

(** ** The session *)

Lemma trim_history_exit fuel q convo trimmed :
  trim_history fuel q convo = Some trimmed ->
  over_budget q trimmed = false
  /\ exists dropped, convo = dropped ++ trimmed.
Proof.
  revert convo. induction fuel as [|fuel IH]; intros convo; simpl;
    destruct (over_budget q convo) eqn:Hover; try discriminate.
  - intros [= <-]. split; [exact Hover | now exists []].
  - intros Htrim. destruct (IH _ Htrim) as [Hexit [dropped Hdropped]].
    split; [exact Hexit |].
    destruct convo as [|x convo]; simpl in Hdropped.
    + now exists dropped.
    + exists (x :: dropped). simpl. now rewrite Hdropped.
  - intros [= <-]. split; [exact Hover | now exists []].
Qed.

(** X21.  The loop only drops from the front, and where it stops its test is
    false: the history it leaves is an end piece of the one it was given. *)
Theorem trim_history_suffix fuel q convo trimmed :
  trim_history fuel q convo = Some trimmed ->
  over_budget q trimmed = false
  /\ exists dropped, convo = dropped ++ trimmed.
Proof. apply trim_history_exit. Qed.

(** X22.  When the test is false on the empty history, that is when the
    query followed by [0] does not read as a number above 3900, the loop ends
    after as many steps as the history has entries, at most. *)
Theorem trim_history_ends fuel q convo :
  over_budget q [] = false ->
  List.length convo <= fuel ->
  exists trimmed, trim_history fuel q convo = Some trimmed.
Proof.
  intros Hempty. revert convo.
  induction fuel as [|fuel IH]; intros convo Hfuel; simpl.
  - destruct convo; [|simpl in Hfuel; lia]. rewrite Hempty. now exists [].
  - destruct (over_budget q convo); [|now exists convo].
    apply IH. destruct convo; simpl in *; lia.
Qed.

(** The query [39] on a history of three entries: the test reads 3920,
    then 3910, then 392, so the loop drops the base prompt and the response and
    stops on the query alone. *)
Lemma trim_history_suffix_witness :
  over_budget "39" ["39"] = false
  /\ exists dropped, ["Summarize"; "A text."; "39"] = dropped ++ ["39"].
Proof.
  apply (trim_history_suffix 3 "39" ["Summarize"; "A text."; "39"] ["39"]).
  reflexivity.
Defined.

(** The same loop: it ends within three steps, and not within one, for it
    has two entries to drop. *)
Lemma trim_history_ends_witness :
  (exists trimmed,
     trim_history 3 "39" ["Summarize"; "A text."; "39"] = Some trimmed)
  /\ trim_history 2 "39" ["Summarize"; "A text."; "39"] = Some ["39"]
  /\ trim_history 1 "39" ["Summarize"; "A text."; "39"] = None.
Proof.
  split; [|split; reflexivity].
  apply (trim_history_ends 3 "39" ["Summarize"; "A text."; "39"]).
  - reflexivity.
  - simpl. lia.
Defined.

Section SessionFacts.

Variable preferences : ExtensionPreferences.
Variable canAccessAI : bool.
Variable hook : HookState.
Variable runReplacements : string -> string.
Variable props : Props.

Lemma onSubmit_accepted fuel (st : State) (values : FormValues) :
  queryField values <> EmptyString ->
  onSubmit preferences canAccessAI hook runReplacements props fuel st values
  = match trim_history fuel (queryField values) (pushed st values) with
    | None => None
    | Some convo =>
        Some ({| query := query st;
                 sentQuery := sent_text props st values (runReplacements (query st));
                 currentResponse := EmptyString;
                 previousResponse := responseField values;
                 enableModel := true;
                 queryError := None;
                 conversation := convo |},
              reattempt preferences canAccessAI hook props st)
    end.
Proof.
  intros Hq. unfold onSubmit. apply length_pos_iff in Hq. now rewrite Hq.
Qed.

(** X23.  A submit with a query that is not empty, once its loop has ended,
    leaves the model switched on: the response of the form is the
    previous response, nothing is on display, the error of the query field is
    cleared, the sent text is built from the placeholders of the query as
    resolved, and the history is an end piece of the old history followed by
    that response and the query. *)
Theorem submit_accepted fuel (st : State) (values : FormValues) :
  queryField values <> EmptyString ->
  match onSubmit preferences canAccessAI hook runReplacements props fuel st values with
  | None => True
  | Some (st', calls) =>
      enableModel st' = true
      /\ previousResponse st' = responseField values
      /\ currentResponse st' = EmptyString
      /\ queryError st' = None
      /\ sentQuery st' = sent_text props st values (runReplacements (query st))
      /\ over_budget (queryField values) (conversation st') = false
      /\ exists dropped,
           conversation st ++ [responseField values; queryField values]
           = dropped ++ conversation st'
  end.
Proof.
  intros Hq. rewrite (onSubmit_accepted fuel st values Hq).
  destruct (trim_history fuel (queryField values) (pushed st values))
    as [convo|] eqn:Htrim; [|exact I].
  destruct (trim_history_exit _ _ _ _ Htrim) as [Hexit Hdropped].
  simpl. repeat split; trivial.
Qed.

(** X24.  For a query that starts with a letter (other than [I]) nothing is
    ever dropped: whatever its length, the history after the submit is the old
    history followed by the response and the query. *)
Theorem submit_word_query_keeps_all fuel (st : State) (values : FormValues) c q :
  JS.starts_word c = true ->
  queryField values = String c q ->
  option_map (fun r => conversation (fst r))
    (onSubmit preferences canAccessAI hook runReplacements props fuel st values)
  = Some (conversation st ++ [responseField values; queryField values]).
Proof.
  intros Hword Hq.
  rewrite onSubmit_accepted by (rewrite Hq; discriminate).
  rewrite Hq at 1. rewrite (trim_history_word c q fuel _ Hword). reflexivity.
Qed.

Lemma sent_text_not_empty (st : State) (values : FormValues) subbedPrompt :
  sent_text props st values subbedPrompt <> EmptyString.
Proof.
  unfold sent_text. intros Hempty.
  apply (f_equal String.length) in Hempty.
  rewrite !length_append in Hempty. simpl in Hempty. lia.
Qed.

End SessionFacts.

Lemma submit_accepted_witness :
  match onSubmit example_preferences true fresh_hook (fun q => q) example_props
          0 answered_state
          {| queryField := "hi"; responseField := "A text.";
             useFilesCheckbox := false; useConversationCheckbox := true |} with
  | None => True
  | Some (st', calls) =>
      enableModel st' = true
      /\ previousResponse st' = "A text."
      /\ currentResponse st' = EmptyString
      /\ queryError st' = None
      /\ sentQuery st'
         = sent_text example_props answered_state
             {| queryField := "hi"; responseField := "A text.";
                useFilesCheckbox := false; useConversationCheckbox := true |}
             ((fun q => q) (query answered_state))
      /\ over_budget "hi" (conversation st') = false
      /\ exists dropped,
           conversation answered_state ++ ["A text."; "hi"]
           = dropped ++ conversation st'
  end.
Proof.
  apply (submit_accepted example_preferences true fresh_hook (fun q => q)
           example_props 0 answered_state
           {| queryField := "hi"; responseField := "A text.";
              useFilesCheckbox := false; useConversationCheckbox := true |}).
  discriminate.
Defined.

Lemma submit_word_query_keeps_all_witness :
  option_map (fun r => conversation (fst r))
    (onSubmit example_preferences true fresh_hook (fun q => q) example_props
       0 example_state (example_values "hello"))
  = Some (conversation example_state
          ++ [responseField (example_values "hello");
              queryField (example_values "hello")]).
Proof.
  apply (submit_word_query_keeps_all example_preferences true fresh_hook
           (fun q => q) example_props 0 example_state (example_values "hello")
           "h" "ello"); reflexivity.
Defined.

Lemma regenerate_native_witness :
  regenerate raycast_preferences true fresh_hook example_props answered_state
  = (answered_state,
     [ModelRerun (promptPrefix raycast_preferences ++ sentQuery answered_state
                  ++ promptSuffix raycast_preferences)%string]).
Proof.
  apply (regenerate_native raycast_preferences true fresh_hook example_props
           answered_state).
  - discriminate.
  - discriminate.
  - reflexivity.
  - reflexivity.
Defined.

Lemma regenerate_other_endpoint_witness :
  regenerate example_preferences true fresh_hook example_props answered_state
  = (answered_state, []).
Proof.
  apply (regenerate_other_endpoint example_preferences true fresh_hook
           example_props answered_state).
  - discriminate.
  - reflexivity.
Defined.

(** ** The placeholders of a query *)

Lemma keyed_fold_present query replacements start :
  fold_left
    (fun subbedPrompt entry =>
       if JS.includes query (fst entry)
       then JS.replaceAll subbedPrompt (fst entry) (snd entry)
       else subbedPrompt)
    replacements start
  = fold_left
      (fun subbedPrompt entry =>
         if JS.includes query (fst entry)
         then JS.replaceAll subbedPrompt (fst entry) (snd entry)
         else subbedPrompt)
      (filter (fun entry => JS.includes query (fst entry)) replacements) start.
Proof.
  revert start. induction replacements as [|entry rest IH]; intros start; simpl;
    [reflexivity |].
  destruct (JS.includes query (fst entry)) eqn:Hin; simpl.
  - rewrite Hin. apply IH.
  - apply IH.
Qed.

(** X28.  The keyed pass replaces the keys that occur in the query as it was
    typed, and only those: a key that occurs only in the text another key
    brought in is left where it is, and the pass does the same as with the
    absent keys taken out of the table. *)
Theorem keyed_only_present_keys replacements query :
  Replacements.keyed replacements query
  = Replacements.keyed
      (filter (fun entry => JS.includes query (fst entry)) replacements) query.
Proof. unfold Replacements.keyed. apply keyed_fold_present. Qed.

Section PassFacts.

Variable replaceOldAppleScriptPlaceholders : string -> string.
Variable replaceAppleScriptPlaceholders : string -> string.
Variable replaceShellScriptPlaceholders : string -> string.
Variable replaceURLPlaceholders : string -> string.
Variable replaceFileSelectionPlaceholders : string -> string.

(** X29.  A query in which no key of the table occurs goes through the
    keyed pass as it is, whatever the table holds: what [runReplacements]
    gives is the five passes for the complex placeholders, in their order, on
    the query itself. *)
Theorem runReplacements_without_keys replacements query :
  (forall entry, In entry replacements -> JS.includes query (fst entry) = false) ->
  Replacements.keyed replacements query = query
  /\ Replacements.runReplacements
       replaceOldAppleScriptPlaceholders replaceAppleScriptPlaceholders
       replaceShellScriptPlaceholders replaceURLPlaceholders
       replaceFileSelectionPlaceholders replacements query
     = replaceFileSelectionPlaceholders
         (replaceURLPlaceholders
            (replaceShellScriptPlaceholders
               (replaceAppleScriptPlaceholders
                  (replaceOldAppleScriptPlaceholders query)))).
Proof.
  intros Habsent.
  assert (Hkeyed : Replacements.keyed replacements query = query).
  { unfold Replacements.keyed. rewrite keyed_fold_present.
    replace (filter (fun entry => JS.includes query (fst entry)) replacements)
      with (@nil (string * string)); [reflexivity |].
    symmetry. induction replacements as [|entry rest IH]; [reflexivity |].
    simpl. rewrite (Habsent entry (or_introl eq_refl)).
    apply IH. intros e He. apply Habsent. now right. }
  split; [exact Hkeyed |].
  unfold Replacements.runReplacements. now rewrite Hkeyed.
Qed.

End PassFacts.

Lemma runReplacements_without_keys_witness :
  Replacements.keyed [("{{date}}", "today"); ("{{user}}", "me")] "What is new?"
  = "What is new?"
  /\ Replacements.runReplacements
       (fun t => t) (fun t => t) (fun t => t) (fun t => t) (fun t => t)
       [("{{date}}", "today"); ("{{user}}", "me")] "What is new?"
     = (fun t => t) ((fun t => t) ((fun t => t) ((fun t => t)
         ((fun t : string => t) "What is new?")))).
Proof.
  apply (runReplacements_without_keys
           (fun t => t) (fun t => t) (fun t => t) (fun t => t) (fun t => t)
           [("{{date}}", "today"); ("{{user}}", "me")] "What is new?").
  intros entry [<- | [<- | []]]; reflexivity.
Defined.

(** ** The store *)

Section DiscoverFacts.

Variable StoreCommand : Type.
Variable categories : StoreCommand -> option string.
Variable Item : Type.
Variable render : StoreCommand -> Item.

(** X30.  Under the category [All] every available command is listed, once
    and in the order of the store, whatever its categories, the first five as
    the newest and the others behind them. *)
Theorem listItems_all (availableCommands : list StoreCommand) :
  Discover.newest Item
    (Discover.listItems StoreCommand categories Item render "All" availableCommands)
  ++ Discover.older Item
       (Discover.listItems StoreCommand categories Item render "All" availableCommands)
  = map render availableCommands
  /\ List.length
       (Discover.newest Item
          (Discover.listItems StoreCommand categories Item render "All"
             availableCommands)) <= 5.
Proof.
  unfold Discover.newest, Discover.older, Discover.listItems. split.
  - rewrite firstn_skipn. f_equal.
    induction availableCommands as [|command rest IH]; [reflexivity |].
    simpl. unfold Discover.in_category at 1.
    rewrite orb_true_r. now rewrite IH.
  - apply firstn_le_length.
Qed.

End DiscoverFacts.
